(** * aezeedcheck: key derivation and address pipeline of [main.go]

    A shallow embedding of [main.go] (package [main] of
    lightninglabs/aezeedcheck) together with the interfaces of the packages
    it calls.  Go values of type [uint32] are integers of [Z] with the
    wrap-around written out; byte slices are lists of [Byte.byte]; a Go
    pair [(value, error)] is a [result]; the process (flag variables,
    standard output, standard error, the calls into [aezeed] and
    [hdkeychain], [os.Exit]) is an explicit state with an exit outcome. *)

From Stdlib Require Import ZArith List String Ascii Bool Lia.
From Stdlib Require Import Strings.Byte.
From Stdlib Require Import DecimalString.
Import ListNotations.

Local Open Scope Z_scope.

(* ================================================================== *)
(** * Part I: the model *)

(* ================================================================== *)
(** * Bytes, integers and text *)

Definition bytes := list byte.

Definition byte_of_Z (z : Z) : byte :=
  match Byte.of_N (Z.to_N (z mod 256)) with
  | Some b => b
  | None => x00
  end.

Definition Z_of_byte (b : byte) : Z := Z.of_N (Byte.to_N b).

(** [n] bytes, most significant first, of [z] reduced modulo [256^n]. *)
Fixpoint be_bytes (n : nat) (z : Z) : bytes :=
  match n with
  | O => []
  | S n' => byte_of_Z (Z.shiftr z (8 * Z.of_nat n')) :: be_bytes n' z
  end.

(** The integer a big-endian byte string denotes. *)
Definition be_Z (bs : bytes) : Z :=
  fold_left (fun acc b => acc * 256 + Z_of_byte b) bs 0.

(** Arithmetic of Go's [uint32]. *)
Definition u32 (z : Z) : Z := z mod 2 ^ 32.

Definition hexdigit (d : Z) : ascii :=
  nth (Z.to_nat d) (list_ascii_of_string "0123456789abcdef") "0"%char.

(** [hex.EncodeToString]. *)
Fixpoint EncodeToString (bs : bytes) : string :=
  match bs with
  | [] => EmptyString
  | b :: rest =>
      String (hexdigit (Z_of_byte b / 16))
        (String (hexdigit (Z_of_byte b mod 16)) (EncodeToString rest))
  end.

(** [%v] of an unsigned integer. *)
Definition fmt_uint (z : Z) : string := NilZero.string_of_int (Z.to_int z).

(** [[]byte(s)]. *)
Definition bytes_of_string (s : string) : bytes := list_byte_of_string s.

(** [strings.Split(s, " ")]: the pieces of [s] between consecutive
    occurrences of one space; [cur] is the piece being read. *)
Fixpoint split_from (cur : string) (s : string) : list string :=
  match s with
  | EmptyString => [cur]
  | String c rest =>
      if Ascii.eqb c " "%char
      then cur :: split_from EmptyString rest
      else split_from (cur ++ String c EmptyString)%string rest
  end.

Definition Split (s : string) : list string := split_from EmptyString s.

(** Go's builtin [copy(dst, src)] on slices, as the new contents of [dst]. *)
Definition copy {A : Type} (dst src : list A) : list A :=
  firstn (List.length dst) src ++ skipn (List.length src) dst.

(** The number of space characters of a string. *)
Fixpoint countSpaces (s : string) : nat :=
  match s with
  | EmptyString => 0
  | String c rest =>
      (if Ascii.eqb c " "%char then 1 else 0) + countSpaces rest
  end.

Definition isLowerHexChar (c : ascii) : bool :=
  existsb (Ascii.eqb c) (list_ascii_of_string "0123456789abcdef").

Definition isLowerHex (s : string) : bool :=
  forallb isLowerHexChar (list_ascii_of_string s).

(* ================================================================== *)
(** * Errors and results *)

(** The error taxonomy of the design, the failures of the cipher-seed
    collaborator, and [fmt.Errorf] wrapping a cause with [%v]. *)
Inductive error : Type :=
| InvalidSeedLength
| HardenedFromPublicOnly
| InvalidTweak
| EncodingError
| SeedRecoveryError (msg : string)
| Errorf (prefix : string) (cause : error).

(** [err.Error()]. *)
Fixpoint errorString (e : error) : string :=
  match e with
  | InvalidSeedLength => "InvalidSeedLength"
  | HardenedFromPublicOnly => "HardenedFromPublicOnly"
  | InvalidTweak => "InvalidTweak"
  | EncodingError => "EncodingError"
  | SeedRecoveryError msg => msg
  | Errorf prefix cause => prefix ++ errorString cause
  end%string.

(** The innermost cause of a wrapped error. *)
Fixpoint rootCause (e : error) : error :=
  match e with
  | Errorf _ cause => rootCause cause
  | _ => e
  end.

(** A Go return pair [(value, error)]. *)
Inductive result (A : Type) : Type :=
| Ok (a : A)
| Error (e : error).
Arguments Ok {A} a.
Arguments Error {A} e.

Definition isOk {A : Type} (r : result A) : bool :=
  match r with Ok _ => true | Error _ => false end.

(** A result with the [fmt.Errorf] wrapping of its error removed. *)
Definition unwrapped {A : Type} (r : result A) : result A :=
  match r with
  | Ok a => Ok a
  | Error e => Error (rootCause e)
  end.

(* ================================================================== *)
(** * Data model *)

(** [btcec.PublicKey]: an affine point of the curve. *)
Record PublicKey : Type := mkPublicKey { X : Z; Y : Z }.

(** [SerializeCompressed]: the parity tag of [Y] and the 32 bytes of [X]. *)
Definition SerializeCompressed (p : PublicKey) : bytes :=
  byte_of_Z (if Z.odd (Y p) then 3 else 2) :: be_bytes 32 (X p).

Inductive KeyMaterial : Type :=
| Private (scalar : Z)
| Public (point : PublicKey).

Record ExtendedKey : Type := mkExtendedKey {
  depth : Z;
  parentFingerprint : bytes;
  childIndex : Z;
  chainCode : bytes;
  keyMaterial : KeyMaterial
}.

(** [aezeed.CipherSeed], as far as the program reads it. *)
Record CipherSeed : Type := mkCipherSeed {
  InternalVersion : Z;
  Birthday : Z;
  Entropy : bytes
}.

(** [chaincfg.Params], as far as address and key encoding read it. *)
Record Params : Type := mkParams {
  Name : string;
  Bech32HRPSegwit : string;
  PubKeyHashAddrID : Z;
  ScriptHashAddrID : Z;
  HDPrivateKeyID : Z;
  HDPublicKeyID : Z
}.

Definition MainNetParams : Params :=
  mkParams "mainnet" "bc" 0 5 76066276 76067358.

Definition TestNet3Params : Params :=
  mkParams "testnet3" "tb" 111 196 70615956 70617039.

(** [btcutil.Address], the two kinds the program builds. *)
Inductive Address : Type :=
| AddressWitnessPubKeyHash (hrp : string) (witnessVersion : Z)
    (witnessProgram : bytes)
| AddressScriptHash (hash : bytes) (netID : Z).

(* ================================================================== *)
(** * The primitives the pipeline consumes

    The hash functions, the curve arithmetic, the text encodings and the
    cipher-seed recovery are collaborators outside the pipeline; the
    development is parametric in them. *)

Class Primitives : Type := {
  (** HMAC-SHA512 of a message under a key: [hmac_sha512 key message]. *)
  hmac_sha512 : bytes -> bytes -> bytes;
  (** [btcutil.Hash160]: RIPEMD160 of the SHA256 digest. *)
  Hash160 : bytes -> bytes;
  Hash160_length : forall b, List.length (Hash160 b) = 20%nat;
  (** secp256k1: base-point multiplication and point addition. *)
  scalarBaseMult : Z -> PublicKey;
  pointAdd : PublicKey -> PublicKey -> PublicKey;
  (** base58check of a payload under a version byte. *)
  base58CheckEncode : bytes -> Z -> string;
  (** bech32 encoding of a witness program under a human-readable part. *)
  segwitEncode : string -> Z -> bytes -> string;
  (** [aezeed.Mnemonic.ToCipherSeed]. *)
  decipher : list string -> bytes -> result CipherSeed;
  (** [%v] of [CipherSeed.BirthdayTime()]. *)
  fmtBirthdayTime : CipherSeed -> string;
  (** The usage text of [flag.PrintDefaults]. *)
  flagDefaults : string
}.

(* ================================================================== *)
(** * Constants of the packages the program imports *)

(** [hdkeychain.HardenedKeyStart]. *)
Definition HardenedKeyStart : Z := 2 ^ 31.

(** [keychain.CoinTypeBitcoin], [keychain.BIP0043Purpose] and
    [keychain.KeyFamilyNodeKey], with the values they have in [lnd]. *)
Definition CoinTypeBitcoin : Z := 0.
Definition BIP0043Purpose : Z := 1017.
Definition KeyFamilyNodeKey : Z := 6.

(** [waddrmgr.KeyScopeBIP0084.Purpose] and
    [waddrmgr.KeyScopeBIP0049Plus.Purpose], with the values they have in
    [btcwallet]. *)
Definition KeyScopeBIP0084_Purpose : Z := 84.
Definition KeyScopeBIP0049Plus_Purpose : Z := 49.

(** [aezeed.NummnemonicWords]. *)
Definition NummnemonicWords : nat := 24.

(** The order of the secp256k1 group. *)
Definition curveOrder : Z :=
  0xFFFFFFFFFFFFFFFFFFFFFFFFFFFFFFFEBAAEDCE6AF48A03BBFD25E8CD0364141.

(** The fixed size of the entropy buffer. *)
Definition EntropySize : nat := 16.

(** [txscript] opcodes. *)
Definition OP_0 : byte := x00.
Definition OP_DATA_20 : byte := x14.
Definition OP_HASH160 : byte := xa9.
Definition OP_EQUAL : byte := x87.

(* ================================================================== *)
(** * Package [hdkeychain]: the extended key node *)

Module hdkeychain.
Section WithPrimitives.
Context {prims : Primitives}.

(** Modelled from the spec: the public key of a node, which package
    [hdkeychain] keeps outside [main.go]; it is computed from the private
    scalar, or carried directly by a node that has public material
    only. *)
Definition pubKeyOf (k : ExtendedKey) : PublicKey :=
  match keyMaterial k with
  | Private d => scalarBaseMult d
  | Public P => P
  end.

(** Modelled from the spec: the child derivation of package [hdkeychain]
    is not part of [main.go]; this is [deriveChild] of the design's
    "Extended Key Node" ([index] below [2^31], the true index being
    [index + 2^31] when hardened). *)
Definition deriveChild (parent : ExtendedKey) (index : Z) (hardened : bool)
  : result ExtendedKey :=
  let trueIndex := if hardened then index + 2 ^ 31 else index in
  match hardened, keyMaterial parent with
  | true, Public _ => Error HardenedFromPublicOnly
  | _, material =>
      let serialization :=
        match hardened, material with
        | true, Private d => x00 :: be_bytes 32 d
        | _, _ => SerializeCompressed (pubKeyOf parent)
        end in
      let digest :=
        hmac_sha512 (serialization ++ be_bytes 4 trueIndex)
          (chainCode parent) in
      let tweak := be_Z (firstn 32 digest) in
      let child (m : KeyMaterial) :=
        mkExtendedKey (depth parent + 1)
          (firstn 4 (Hash160 (SerializeCompressed (pubKeyOf parent))))
          trueIndex (skipn 32 digest) m in
      if curveOrder <=? tweak then Error InvalidTweak
      else
        match material with
        | Private d =>
            let d' := (tweak + d) mod curveOrder in
            if d' =? 0 then Error InvalidTweak else Ok (child (Private d'))
        | Public P => Ok (child (Public (pointAdd (scalarBaseMult tweak) P)))
        end
  end.

(** Modelled from the spec: [k.Child(i)] of package [hdkeychain], not
    part of [main.go]; it is [deriveChild] at the true index [i], hardened
    from [HardenedKeyStart] on. *)
Definition Child (k : ExtendedKey) (i : Z) : result ExtendedKey :=
  if HardenedKeyStart <=? i
  then deriveChild k (i - HardenedKeyStart) true
  else deriveChild k i false.

(** Modelled from the spec: master-node construction of package
    [hdkeychain] is not part of [main.go]; it fails with
    [InvalidSeedLength] unless the entropy has the fixed size, and is the
    standard seed-to-master derivation otherwise (the two halves of the
    HMAC-SHA512 of the seed under the key "Bitcoin seed" are the private
    scalar and the chain code, an out-of-range scalar being refused). *)
Definition NewMaster (seed : bytes) (net : Params) : result ExtendedKey :=
  if negb (Nat.eqb (List.length seed) EntropySize)
  then Error InvalidSeedLength
  else
    let digest := hmac_sha512 (bytes_of_string "Bitcoin seed") seed in
    let d := be_Z (firstn 32 digest) in
    if (d =? 0) || (curveOrder <=? d) then Error InvalidTweak
    else Ok (mkExtendedKey 0 [x00; x00; x00; x00] 0 (skipn 32 digest)
               (Private d)).

(** Modelled from the spec: [k.ECPubKey()] of package [hdkeychain], not
    part of [main.go]; it extracts the public key of a node. *)
Definition ECPubKey (k : ExtendedKey) : result PublicKey :=
  Ok (pubKeyOf k).

End WithPrimitives.
End hdkeychain.

(* ================================================================== *)
(** * Packages [btcutil] and [txscript]: addresses and scripts *)

Module btcutil.
Section WithPrimitives.
Context {prims : Primitives}.

(** Modelled from the spec: the address constructors of package
    [btcutil] are not part of [main.go].  The native witness address
    wraps a 20-byte hash in a witness-version-0 program under the
    network's native-witness encoding and refuses any other length. *)
Definition NewAddressWitnessPubKeyHash (witnessProg : bytes) (net : Params)
  : result Address :=
  if Nat.eqb (List.length witnessProg) 20
  then Ok (AddressWitnessPubKeyHash (Bech32HRPSegwit net) 0 witnessProg)
  else Error EncodingError.

(** Modelled from the spec: the legacy script-hash encoding of a 20-byte
    hash, of package [btcutil] and not part of [main.go]. *)
Definition NewAddressScriptHashFromHash (scriptHash : bytes) (net : Params)
  : result Address :=
  if Nat.eqb (List.length scriptHash) 20
  then Ok (AddressScriptHash scriptHash (ScriptHashAddrID net))
  else Error EncodingError.

(** Modelled from the spec: the script-hash address of a serialized
    script is the legacy encoding of the script's hash160. *)
Definition NewAddressScriptHash (serializedScript : bytes) (net : Params)
  : result Address :=
  NewAddressScriptHashFromHash (Hash160 serializedScript) net.

(** Modelled from the spec: [addr.String()] of package [btcutil], what
    [fmt.Println] shows of an address: the bech32 text of a witness
    program, the base58check text of a script hash. *)
Definition EncodeAddress (a : Address) : string :=
  match a with
  | AddressWitnessPubKeyHash hrp version program =>
      segwitEncode hrp version program
  | AddressScriptHash h netID => base58CheckEncode h netID
  end.

End WithPrimitives.
End btcutil.

Module txscript.

(** Modelled from the spec: the script that pays to an address, not part
    of [main.go].  A witness program is serialized as its version opcode
    and the push of its hash; a script hash as the usual hash-equality
    script. *)
Definition PayToAddrScript (addr : Address) : result bytes :=
  match addr with
  | AddressWitnessPubKeyHash _ _ program =>
      Ok (OP_0 :: OP_DATA_20 :: program)
  | AddressScriptHash h _ =>
      Ok (OP_HASH160 :: OP_DATA_20 :: h ++ [OP_EQUAL])
  end.

End txscript.

(* ================================================================== *)
(** * The process: flags, output streams, calls, exit *)

(** What the process does that can be observed, in the order it happens:
    lines on standard output and standard error, and the calls into the
    cipher-seed recovery and the extended-key package. *)
Inductive event : Type :=
| Stdout (line : string)
| Stderr (line : string)
| CallToCipherSeed (words : list string) (password : bytes)
| CallNewMaster (seed : bytes) (net : Params)
| CallChild (parent : ExtendedKey) (index : Z).

(** The package-level flag variables and the events so far. *)
Record World : Type := mkWorld {
  mnemonic : string;
  aezeedPass : string;
  trace : list event
}.

(** A computation returns a value or has ended the process by
    [os.Exit(code)]. *)
Inductive outcome (A : Type) : Type :=
| Val (a : A)
| Exited (code : Z).
Arguments Val {A} a.
Arguments Exited {A} code.

Definition M (A : Type) : Type := World -> outcome A * World.

Definition ret {A : Type} (a : A) : M A := fun w => (Val a, w).

Definition bind {A B : Type} (c : M A) (k : A -> M B) : M B :=
  fun w =>
    match c w with
    | (Val a, w') => k a w'
    | (Exited code, w') => (Exited code, w')
    end.

Notation "x <- c ;; k" := (bind c (fun x => k))
  (at level 61, c at next level, right associativity).
Notation "c ;; k" := (bind c (fun _ => k))
  (at level 61, right associativity).

Definition emit (e : event) : M unit :=
  fun w => (Val tt, mkWorld (mnemonic w) (aezeedPass w) (trace w ++ [e])).

Definition readFlag (flag : World -> string) : M string :=
  fun w => (Val (flag w), w).

Definition exit {A : Type} (code : Z) : M A := fun w => (Exited code, w).

(** [fmt.Println]: the operands separated by one space, on one line. *)
Definition Println (operands : list string) : M unit :=
  emit (Stdout (String.concat " " operands)).

(** [fmt.Printf] of one complete line. *)
Definition Printf (line : string) : M unit := emit (Stdout line).

(** [log.Fatalf]: the message on standard error (the logger's time stamp
    left out), then [os.Exit(1)]. *)
Definition Fatalf {A : Type} (message : string) : M A :=
  emit (Stderr message) ;; exit 1.

(** The status the process ends with: 0 when [main] returns. *)
Definition exitStatus {A : Type} (o : outcome A) : Z :=
  match o with
  | Val _ => 0
  | Exited code => code
  end.

Definition stdoutOf (t : list event) : list string :=
  flat_map (fun e => match e with Stdout l => [l] | _ => [] end) t.

Definition stderrOf (t : list event) : list string :=
  flat_map (fun e => match e with Stderr l => [l] | _ => [] end) t.

Definition isDerivation (e : event) : bool :=
  match e with
  | CallChild _ _ => true
  | _ => false
  end.

Definition callIndex (e : event) : list Z :=
  match e with
  | CallChild _ i => [i]
  | _ => []
  end.

(** The indices of the child derivations among the events, in order. *)
Definition childIndices (t : list event) : list Z := flat_map callIndex t.

Definition isHardened (i : Z) : bool := HardenedKeyStart <=? i.

(** The world with further events appended. *)
Definition appendEvents (w : World) (es : list event) : World :=
  mkWorld (mnemonic w) (aezeedPass w) (trace w ++ es).

Definition emptyWorld : World := mkWorld "" "" [].

(** A computation that neither reads nor changes the flags, ignores the
    events so far and only appends its own. *)
Definition frames {A : Type} (c : M A) : Prop :=
  forall w,
    c w = (fst (c emptyWorld), appendEvents w (trace (snd (c emptyWorld)))).

(** Every master-key construction among the events is for the given
    network. *)
Definition mastersOn (net : Params) (t : list event) : Prop :=
  Forall (fun e => match e with
                   | CallNewMaster _ net' => net' = net
                   | _ => True
                   end) t.

(* ================================================================== *)
(** * [main.go] *)

Section Program.
Context {prims : Primitives}.

Local Open Scope string_scope.

(** [flag.PrintDefaults], on standard error. *)
Definition PrintDefaults : M unit := emit (Stderr flagDefaults).

(** The library calls the program makes, recorded as events. *)
Definition ToCipherSeed (m : list string) (password : bytes)
  : M (result CipherSeed) :=
  emit (CallToCipherSeed m password) ;; ret (decipher m password).

Definition NewMaster (seed : bytes) (net : Params) : M (result ExtendedKey) :=
  emit (CallNewMaster seed net) ;; ret (hdkeychain.NewMaster seed net).

Definition Child (k : ExtendedKey) (i : Z) : M (result ExtendedKey) :=
  emit (CallChild k i) ;; ret (hdkeychain.Child k i).

Definition ECPubKey (k : ExtendedKey) : M (result PublicKey) :=
  ret (hdkeychain.ECPubKey k).

Definition deriveAccountKey (rootKey : ExtendedKey) (purpose : Z)
    (keyFamily : Z) : M (result ExtendedKey) :=
  r <- Child rootKey (u32 (purpose + HardenedKeyStart)) ;;
  match r with
  | Error err => ret (Error (Errorf "unable to derive purpose key; " err))
  | Ok purposeKey =>
  r <- Child purposeKey (u32 (CoinTypeBitcoin + HardenedKeyStart)) ;;
  match r with
  | Error err => ret (Error (Errorf "unable to generate coin type key: " err))
  | Ok coinTypeKey =>
  r <- Child coinTypeKey (u32 (u32 keyFamily + HardenedKeyStart)) ;;
  match r with
  | Error err => ret (Error (Errorf "unable to derive account key: " err))
  | Ok accountKey => ret (Ok accountKey)
  end end end.

Definition deriveFirstKey (rootKey : ExtendedKey) (purpose : Z)
    (keyFamily : Z) : M (result PublicKey) :=
  r <- deriveAccountKey rootKey purpose keyFamily ;;
  match r with
  | Error err => ret (Error err)
  | Ok accountKey =>
  r <- Child accountKey 0 ;;
  match r with
  | Error err => ret (Error err)
  | Ok externalBranch =>
  r <- Child externalBranch 0 ;;
  match r with
  | Error err => ret (Error err)
  | Ok firstChild => ECPubKey firstChild
  end end end.

Definition keyToP2wkhAddr (key : PublicKey) : result Address :=
  let pubKeyHash := Hash160 (SerializeCompressed key) in
  btcutil.NewAddressWitnessPubKeyHash pubKeyHash MainNetParams.

Definition keyToNp2wkhAddr (key : PublicKey) : result Address :=
  let pubKeyHash := Hash160 (SerializeCompressed key) in
  match btcutil.NewAddressWitnessPubKeyHash pubKeyHash MainNetParams with
  | Error err => Error err
  | Ok witAddr =>
  match txscript.PayToAddrScript witAddr with
  | Error err => Error err
  | Ok witnessProgram =>
      btcutil.NewAddressScriptHash witnessProgram MainNetParams
  end end.

(** The body of [main] from the point where [flag.Parse] has returned
    (lines 116 to 184), with the purpose and key family of the three
    derivation paths (node key, native segwit, nested segwit) as
    parameters; [main] below fixes them to the constants of the source.
    [flag.Parse] itself is package [flag]'s and lies outside the model:
    on a command line it refuses it ends the process with a status of its
    own and the body is never entered.  A state [w] holds the values the
    two flags have after it returned, and every statement about [main] is
    about the runs that reach line 116. *)
Definition mainWith (nodePath segwitPath nestedPath : Z * Z) : M unit :=
  mnemonicFlag <- readFlag mnemonic ;;
  if String.eqb mnemonicFlag ""
  then PrintDefaults
  else
  let mnemonicPhrase := Split mnemonicFlag in
  (if negb (Nat.eqb (List.length mnemonicPhrase) NummnemonicWords)
   then Fatalf ("expected " ++ fmt_uint (Z.of_nat NummnemonicWords)
                ++ " words, instead got "
                ++ fmt_uint (Z.of_nat (List.length mnemonicPhrase)))
   else ret tt) ;;
  let aezeedPhrase := copy (repeat "" NummnemonicWords) mnemonicPhrase in
  passFlag <- readFlag aezeedPass ;;
  let password :=
    if String.eqb passFlag "" then [] else bytes_of_string passFlag in
  r <- ToCipherSeed aezeedPhrase password ;;
  match r with
  | Error err => Fatalf ("unable to decrypt cipher seed: " ++ errorString err)
  | Ok cipherSeed =>
  Printf ("Wallet Birthday: " ++ fmtBirthdayTime cipherSeed
          ++ ", Internal Version: "
          ++ fmt_uint (InternalVersion cipherSeed)) ;;
  let entropy := Entropy cipherSeed in
  r <- NewMaster entropy MainNetParams ;;
  match r with
  | Error err => Fatalf ("unable to make HD priv root: " ++ errorString err)
  | Ok rootKey =>
  r <- deriveFirstKey rootKey (fst nodePath) (snd nodePath) ;;
  match r with
  | Error err => Fatalf ("unable to derive node key: " ++ errorString err)
  | Ok nodePub =>
  r <- deriveFirstKey rootKey (fst segwitPath) (snd segwitPath) ;;
  match r with
  | Error err =>
      Fatalf ("unable to derive first segwit addr: " ++ errorString err)
  | Ok firstP2wkhKey =>
  match keyToP2wkhAddr firstP2wkhKey with
  | Error err => Fatalf ("unable to create p2wkh addr: " ++ errorString err)
  | Ok firstSegwitAddr =>
  r <- deriveFirstKey rootKey (fst nestedPath) (snd nestedPath) ;;
  match r with
  | Error err =>
      Fatalf ("unable to derive first nested segwit addr: "
              ++ errorString err)
  | Ok firstNp2wkhKey =>
  match keyToNp2wkhAddr firstNp2wkhKey with
  | Error err => Fatalf ("unable to create np2wkh addr: " ++ errorString err)
  | Ok firstNestedSegwitAddr =>
  Println ["Node pub key: ";
           EncodeToString (SerializeCompressed nodePub)] ;;
  Println ["First p2wkh address: "; btcutil.EncodeAddress firstSegwitAddr] ;;
  Println ["First n2pwkh address";
           btcutil.EncodeAddress firstNestedSegwitAddr]
  end end end end end end end.

Definition main : M unit :=
  mainWith (BIP0043Purpose, KeyFamilyNodeKey)
           (KeyScopeBIP0084_Purpose, 0)
           (KeyScopeBIP0049Plus_Purpose, 0).

End Program.

(* ================================================================== *)
(** * Derivation paths of the design

    A [DerivationPath] is an ordered sequence of (index, hardened?) pairs;
    walking it applies [deriveChild] step by step and stops at the first
    failure.  These follow the words of the design and are what the
    functions of [main.go] are compared with. *)

Definition DerivationPath : Type := list (Z * bool).

Definition trueIndex (step : Z * bool) : Z :=
  if snd step then fst step + 2 ^ 31 else fst step.

Definition accountPath (purpose keyFamily : Z) : DerivationPath :=
  [(purpose, true); (CoinTypeBitcoin, true); (keyFamily, true)].

Definition leafPath (purpose keyFamily : Z) : DerivationPath :=
  accountPath purpose keyFamily ++ [(0, false); (0, false)].

Section Paths.
Context {prims : Primitives}.

Fixpoint walk (k : ExtendedKey) (path : DerivationPath) : result ExtendedKey :=
  match path with
  | [] => Ok k
  | step :: rest =>
      match hdkeychain.deriveChild k (fst step) (snd step) with
      | Ok child => walk child rest
      | Error e => Error e
      end
  end.

(** The child derivations a walk performs, each on the node the previous
    one produced. *)
Fixpoint walkCalls (k : ExtendedKey) (path : DerivationPath) : list event :=
  match path with
  | [] => []
  | step :: rest =>
      CallChild k (trueIndex step)
      :: match hdkeychain.deriveChild k (fst step) (snd step) with
         | Ok child => walkCalls child rest
         | Error _ => []
         end
  end.

Definition leafPublicKey (root : ExtendedKey) (purpose keyFamily : Z)
  : result PublicKey :=
  match walk root (leafPath purpose keyFamily) with
  | Ok leaf => Ok (hdkeychain.pubKeyOf leaf)
  | Error e => Error e
  end.

End Paths.

Section PathsOfMain.
Context {prims : Primitives}.

(** The three derivations of [main], in its order, with the purpose and
    key family of each path as parameters. *)
Definition threePaths (root : ExtendedKey) (c1 c2 c3 : Z * Z)
  : M (result PublicKey * result PublicKey * result PublicKey) :=
  r1 <- deriveFirstKey root (fst c1) (snd c1) ;;
  r2 <- deriveFirstKey root (fst c2) (snd c2) ;;
  r3 <- deriveFirstKey root (fst c3) (snd c3) ;;
  ret (r1, r2, r3).

(** The value [deriveFirstKey] returns, whatever the state. *)
Definition returnsKey (root : ExtendedKey) (c : Z * Z) (r : result PublicKey)
  : Prop :=
  forall w, fst (deriveFirstKey root (fst c) (snd c) w) = Val r.

End PathsOfMain.

(* ================================================================== *)
(** * The runs of [main] *)

Section RunsOfMain.
Context {prims : Primitives}.

Local Open Scope string_scope.

(** What [main] passes to the cipher-seed recovery. *)
Definition phraseOf (w : World) : list string :=
  copy (repeat "" NummnemonicWords) (Split (mnemonic w)).

Definition passwordOf (w : World) : bytes :=
  if String.eqb (aezeedPass w) "" then [] else bytes_of_string (aezeedPass w).

(** The lines of the report. *)
Definition birthdayLine (seed : CipherSeed) : string :=
  "Wallet Birthday: " ++ fmtBirthdayTime seed
  ++ ", Internal Version: " ++ fmt_uint (InternalVersion seed).

Definition nodeKeyLine (nodePub : PublicKey) : string :=
  "Node pub key:  " ++ EncodeToString (SerializeCompressed nodePub).

Definition segwitLine (a : Address) : string :=
  "First p2wkh address:  " ++ btcutil.EncodeAddress a.

Definition nestedLine (a : Address) : string :=
  "First n2pwkh address " ++ btcutil.EncodeAddress a.

Definition wordCountMessage (n : nat) : string :=
  "expected " ++ fmt_uint (Z.of_nat NummnemonicWords)
  ++ " words, instead got " ++ fmt_uint (Z.of_nat n).

(** [deriveFirstKey] on a path returns [r] after the child derivations
    [d], whatever the state. *)
Definition derives (root : ExtendedKey) (c : Z * Z) (r : result PublicKey)
    (d : list event) : Prop :=
  (forall w,
     deriveFirstKey root (fst c) (snd c) w = (Val r, appendEvents w d))
  /\ forallb isDerivation d = true.

(** The mnemonic flag is set and splits into the expected number of
    words. *)
Definition wellCounted (w : World) : Prop :=
  mnemonic w <> ""
  /\ List.length (Split (mnemonic w)) = NummnemonicWords.

(** The events up to and including master-key construction, once the
    cipher seed is recovered. *)
Definition prologue (w : World) (seed : CipherSeed) : list event :=
  [CallToCipherSeed (phraseOf w) (passwordOf w);
   Stdout (birthdayLine seed);
   CallNewMaster (Entropy seed) MainNetParams].

(** The ways [main] can run from a state [w]: how it ends and the events
    it adds, one rule per path through its body. *)
Inductive Run (c1 c2 c3 : Z * Z) (w : World)
  : outcome unit -> list event -> Prop :=
| RunUsage :
    mnemonic w = "" ->
    Run c1 c2 c3 w (Val tt) [Stderr flagDefaults]
| RunWordCount :
    mnemonic w <> "" ->
    List.length (Split (mnemonic w)) <> NummnemonicWords ->
    Run c1 c2 c3 w (Exited 1)
      [Stderr (wordCountMessage (List.length (Split (mnemonic w))))]
| RunDecryptFailed (e : error) :
    wellCounted w ->
    decipher (phraseOf w) (passwordOf w) = Error e ->
    Run c1 c2 c3 w (Exited 1)
      [CallToCipherSeed (phraseOf w) (passwordOf w);
       Stderr ("unable to decrypt cipher seed: " ++ errorString e)]
| RunMasterFailed (seed : CipherSeed) (e : error) :
    wellCounted w ->
    decipher (phraseOf w) (passwordOf w) = Ok seed ->
    hdkeychain.NewMaster (Entropy seed) MainNetParams = Error e ->
    Run c1 c2 c3 w (Exited 1)
      (prologue w seed
       ++ [Stderr ("unable to make HD priv root: " ++ errorString e)])
| RunNodeKeyFailed (seed : CipherSeed) (root : ExtendedKey) (e : error)
    (d1 : list event) :
    wellCounted w ->
    decipher (phraseOf w) (passwordOf w) = Ok seed ->
    hdkeychain.NewMaster (Entropy seed) MainNetParams = Ok root ->
    derives root c1 (Error e) d1 ->
    Run c1 c2 c3 w (Exited 1)
      (prologue w seed ++ d1
       ++ [Stderr ("unable to derive node key: " ++ errorString e)])
| RunSegwitKeyFailed (seed : CipherSeed) (root : ExtendedKey)
    (nodePub : PublicKey) (e : error) (d1 d2 : list event) :
    wellCounted w ->
    decipher (phraseOf w) (passwordOf w) = Ok seed ->
    hdkeychain.NewMaster (Entropy seed) MainNetParams = Ok root ->
    derives root c1 (Ok nodePub) d1 ->
    derives root c2 (Error e) d2 ->
    Run c1 c2 c3 w (Exited 1)
      (prologue w seed ++ d1 ++ d2
       ++ [Stderr ("unable to derive first segwit addr: " ++ errorString e)])
| RunSegwitAddrFailed (seed : CipherSeed) (root : ExtendedKey)
    (nodePub k2 : PublicKey) (e : error) (d1 d2 : list event) :
    wellCounted w ->
    decipher (phraseOf w) (passwordOf w) = Ok seed ->
    hdkeychain.NewMaster (Entropy seed) MainNetParams = Ok root ->
    derives root c1 (Ok nodePub) d1 ->
    derives root c2 (Ok k2) d2 ->
    keyToP2wkhAddr k2 = Error e ->
    Run c1 c2 c3 w (Exited 1)
      (prologue w seed ++ d1 ++ d2
       ++ [Stderr ("unable to create p2wkh addr: " ++ errorString e)])
| RunNestedKeyFailed (seed : CipherSeed) (root : ExtendedKey)
    (nodePub k2 : PublicKey) (a2 : Address) (e : error)
    (d1 d2 d3 : list event) :
    wellCounted w ->
    decipher (phraseOf w) (passwordOf w) = Ok seed ->
    hdkeychain.NewMaster (Entropy seed) MainNetParams = Ok root ->
    derives root c1 (Ok nodePub) d1 ->
    derives root c2 (Ok k2) d2 ->
    keyToP2wkhAddr k2 = Ok a2 ->
    derives root c3 (Error e) d3 ->
    Run c1 c2 c3 w (Exited 1)
      (prologue w seed ++ d1 ++ d2 ++ d3
       ++ [Stderr ("unable to derive first nested segwit addr: "
                   ++ errorString e)])
| RunNestedAddrFailed (seed : CipherSeed) (root : ExtendedKey)
    (nodePub k2 k3 : PublicKey) (a2 : Address) (e : error)
    (d1 d2 d3 : list event) :
    wellCounted w ->
    decipher (phraseOf w) (passwordOf w) = Ok seed ->
    hdkeychain.NewMaster (Entropy seed) MainNetParams = Ok root ->
    derives root c1 (Ok nodePub) d1 ->
    derives root c2 (Ok k2) d2 ->
    keyToP2wkhAddr k2 = Ok a2 ->
    derives root c3 (Ok k3) d3 ->
    keyToNp2wkhAddr k3 = Error e ->
    Run c1 c2 c3 w (Exited 1)
      (prologue w seed ++ d1 ++ d2 ++ d3
       ++ [Stderr ("unable to create np2wkh addr: " ++ errorString e)])
| RunReport (seed : CipherSeed) (root : ExtendedKey)
    (nodePub k2 k3 : PublicKey) (a2 a3 : Address) (d1 d2 d3 : list event) :
    wellCounted w ->
    decipher (phraseOf w) (passwordOf w) = Ok seed ->
    hdkeychain.NewMaster (Entropy seed) MainNetParams = Ok root ->
    derives root c1 (Ok nodePub) d1 ->
    derives root c2 (Ok k2) d2 ->
    keyToP2wkhAddr k2 = Ok a2 ->
    derives root c3 (Ok k3) d3 ->
    keyToNp2wkhAddr k3 = Ok a3 ->
    Run c1 c2 c3 w (Val tt)
      (prologue w seed ++ d1 ++ d2 ++ d3
       ++ [Stdout (nodeKeyLine nodePub); Stdout (segwitLine a2);
           Stdout (nestedLine a3)]).

(** The first step of [main] that fails once the cipher seed [seed] is
    recovered: the text [main] puts before the cause in its message, the
    error the failing call returned, and the child derivations made up to
    the failure.  One rule per call whose error [main] checks from
    master-key construction on (lines 145 to 179), with every call before
    it returning a value. *)
Inductive FailingStep (seed : CipherSeed)
  : string -> error -> list event -> Prop :=
| MasterKeyFails (e : error) :
    hdkeychain.NewMaster (Entropy seed) MainNetParams = Error e ->
    FailingStep seed "unable to make HD priv root: " e []
| NodeKeyFails (root : ExtendedKey) (e : error) (d1 : list event) :
    hdkeychain.NewMaster (Entropy seed) MainNetParams = Ok root ->
    derives root (BIP0043Purpose, KeyFamilyNodeKey) (Error e) d1 ->
    FailingStep seed "unable to derive node key: " e d1
| SegwitKeyFails (root : ExtendedKey) (nodePub : PublicKey) (e : error)
    (d1 d2 : list event) :
    hdkeychain.NewMaster (Entropy seed) MainNetParams = Ok root ->
    derives root (BIP0043Purpose, KeyFamilyNodeKey) (Ok nodePub) d1 ->
    derives root (KeyScopeBIP0084_Purpose, 0) (Error e) d2 ->
    FailingStep seed "unable to derive first segwit addr: " e (d1 ++ d2)
| SegwitAddressFails (root : ExtendedKey) (nodePub k2 : PublicKey)
    (e : error) (d1 d2 : list event) :
    hdkeychain.NewMaster (Entropy seed) MainNetParams = Ok root ->
    derives root (BIP0043Purpose, KeyFamilyNodeKey) (Ok nodePub) d1 ->
    derives root (KeyScopeBIP0084_Purpose, 0) (Ok k2) d2 ->
    keyToP2wkhAddr k2 = Error e ->
    FailingStep seed "unable to create p2wkh addr: " e (d1 ++ d2)
| NestedKeyFails (root : ExtendedKey) (nodePub k2 : PublicKey)
    (a2 : Address) (e : error) (d1 d2 d3 : list event) :
    hdkeychain.NewMaster (Entropy seed) MainNetParams = Ok root ->
    derives root (BIP0043Purpose, KeyFamilyNodeKey) (Ok nodePub) d1 ->
    derives root (KeyScopeBIP0084_Purpose, 0) (Ok k2) d2 ->
    keyToP2wkhAddr k2 = Ok a2 ->
    derives root (KeyScopeBIP0049Plus_Purpose, 0) (Error e) d3 ->
    FailingStep seed "unable to derive first nested segwit addr: " e
      (d1 ++ d2 ++ d3)
| NestedAddressFails (root : ExtendedKey) (nodePub k2 k3 : PublicKey)
    (a2 : Address) (e : error) (d1 d2 d3 : list event) :
    hdkeychain.NewMaster (Entropy seed) MainNetParams = Ok root ->
    derives root (BIP0043Purpose, KeyFamilyNodeKey) (Ok nodePub) d1 ->
    derives root (KeyScopeBIP0084_Purpose, 0) (Ok k2) d2 ->
    keyToP2wkhAddr k2 = Ok a2 ->
    derives root (KeyScopeBIP0049Plus_Purpose, 0) (Ok k3) d3 ->
    keyToNp2wkhAddr k3 = Error e ->
    FailingStep seed "unable to create np2wkh addr: " e (d1 ++ d2 ++ d3).

(** The script that pays to the native witness address of a key: the
    witness version, the push of 20 bytes, the hash of the key. *)
Definition witnessScript (pub : PublicKey) : bytes :=
  OP_0 :: OP_DATA_20 :: Hash160 (SerializeCompressed pub).

End RunsOfMain.

(* ================================================================== *)
(** * Further observations of derivations and runs *)

(** The true indices [deriveAccountKey] and [deriveFirstKey] pass to
    [Child], as the source computes them in [uint32]. *)
Definition accountIndices (purpose keyFamily : Z) : list Z :=
  [u32 (purpose + HardenedKeyStart);
   u32 (CoinTypeBitcoin + HardenedKeyStart);
   u32 (u32 keyFamily + HardenedKeyStart)].

Definition leafIndices (purpose keyFamily : Z) : list Z :=
  accountIndices purpose keyFamily ++ [0; 0].

Section Chains.
Context {prims : Primitives}.

(** [Child] along a list of true indices, stopping at the first failure,
    and the calls this makes. *)
Fixpoint childChain (k : ExtendedKey) (indices : list Z)
  : result ExtendedKey :=
  match indices with
  | [] => Ok k
  | i :: rest =>
      match hdkeychain.Child k i with
      | Ok child => childChain child rest
      | Error e => Error e
      end
  end.

Fixpoint childChainCalls (k : ExtendedKey) (indices : list Z) : list event :=
  match indices with
  | [] => []
  | i :: rest =>
      CallChild k i
      :: match hdkeychain.Child k i with
         | Ok child => childChainCalls child rest
         | Error _ => []
         end
  end.

End Chains.

(** The calls among the events, without the output lines. *)
Definition isCall (e : event) : bool :=
  match e with
  | Stdout _ | Stderr _ => false
  | _ => true
  end.

Definition callsOf (t : list event) : list event := filter isCall t.

(** The words and pass phrases handed to the cipher-seed recovery. *)
Definition decryptionsOf (t : list event) : list (list string * bytes) :=
  flat_map (fun e => match e with
                     | CallToCipherSeed ws pw => [(ws, pw)]
                     | _ => []
                     end) t.

(** The step of [deriveFirstKey] a failure belongs to, by the number of
    child derivations that succeeded before it: the message
    [deriveAccountKey] puts in front of the cause, or none for the branch
    and index steps. *)
Definition stepPrefix (succeeded : nat) : option string :=
  match succeeded with
  | 0%nat => Some "unable to derive purpose key; "%string
  | 1%nat => Some "unable to generate coin type key: "%string
  | 2%nat => Some "unable to derive account key: "%string
  | _ => None
  end.

Definition wrapAt (succeeded : nat) (cause : error) : error :=
  match stepPrefix succeeded with
  | Some prefix => Errorf prefix cause
  | None => cause
  end.

(** The value of a hexadecimal digit: its place among the digits. *)
Fixpoint placeOf (c : ascii) (digits : list ascii) : Z :=
  match digits with
  | [] => 0
  | d :: rest => if Ascii.eqb c d then 0 else 1 + placeOf c rest
  end.

Definition hexvalue (c : ascii) : Z :=
  placeOf c (list_ascii_of_string "0123456789abcdef").

(* ================================================================== *)
(** * Instances of the primitives for running the model

    Small stand-ins with the shapes of the real primitives: digests of the
    right length, an additive group of the curve's order for the points.
    They serve to evaluate the definitions on concrete inputs. *)

Module Sample.

Definition byteSum (bs : bytes) : Z :=
  fold_left (fun acc b => acc + Z_of_byte b) bs 0.

(** A digest of 64 bytes whose halves are small and non-zero. *)
Definition hmac (key message : bytes) : bytes :=
  be_bytes 32 (1 + byteSum key + 3 * byteSum message)
  ++ be_bytes 32 (2 + byteSum key * 5 + byteSum message).

(** The master key is derived as by [hmac]; for every other key the left
    half of the digest is not below the curve order, so that every child
    derivation fails. *)
Definition hmacChildrenOutOfRange (key message : bytes) : bytes :=
  if String.eqb (string_of_list_byte key) "Bitcoin seed"
  then hmac key message
  else repeat xff 64.

Definition hashNumber (bs : bytes) : Z :=
  byteSum bs * 65537 + Z.of_nat (List.length bs).

Definition hash160 (bs : bytes) : bytes := be_bytes 20 (hashNumber bs).

(** Points as multiples of the base point in the group of integers modulo
    the curve order. *)
Definition baseMult (k : Z) : PublicKey :=
  mkPublicKey (k mod curveOrder) (k mod 2).

Definition add (p q : PublicKey) : PublicKey :=
  baseMult (X p + X q).

Definition base58 (payload : bytes) (version : Z) : string :=
  ("b58:" ++ EncodeToString (byte_of_Z version :: payload))%string.

Definition bech32 (hrp : string) (version : Z) (program : bytes) : string :=
  (hrp ++ "1" ++ EncodeToString (byte_of_Z version :: program))%string.

(** A cipher seed of sixteen bytes of entropy; the pass phrase "wrong"
    is refused. *)
Definition recover (words : list string) (password : bytes)
  : result CipherSeed :=
  if String.eqb (string_of_list_byte password) "wrong"
  then Error (SeedRecoveryError "invalid passphrase")
  else Ok (mkCipherSeed 0 3723
             (be_bytes 16 (Z.of_nat (List.length (List.concat (map bytes_of_string words)))))).

(** A cipher seed with a truncated entropy buffer. *)
Definition recoverTruncated (words : list string) (password : bytes)
  : result CipherSeed :=
  Ok (mkCipherSeed 0 3723 (repeat x00 15)).

Definition birthday (s : CipherSeed) : string :=
  ("day " ++ fmt_uint (Birthday s))%string.

Definition usage : string :=
  "  -mnemonic string / -pass string".

End Sample.

Module SampleInstances.

(** Everything succeeds. *)
Definition sound : Primitives :=
  Build_Primitives Sample.hmac Sample.hash160 (fun _ => eq_refl)
    Sample.baseMult Sample.add Sample.base58 Sample.bech32
    Sample.recover Sample.birthday Sample.usage.

(** The master key is built, every child derivation fails. *)
Definition failingChildren : Primitives :=
  Build_Primitives Sample.hmacChildrenOutOfRange Sample.hash160
    (fun _ => eq_refl)
    Sample.baseMult Sample.add Sample.base58 Sample.bech32
    Sample.recover Sample.birthday Sample.usage.

(** The recovered entropy is one byte short. *)
Definition truncated : Primitives :=
  Build_Primitives Sample.hmac Sample.hash160 (fun _ => eq_refl)
    Sample.baseMult Sample.add Sample.base58 Sample.bech32
    Sample.recoverTruncated Sample.birthday Sample.usage.

Definition words24 : string :=
  "a b c d e f g h i j k l m n o p q r s t u v w x".

Definition world0 (mn pass : string) : World := mkWorld mn pass [].

(** A private root, a root with public material only, a public key. *)
Definition privateRoot : ExtendedKey :=
  mkExtendedKey 0 [x00; x00; x00; x00] 0 (be_bytes 32 7) (Private 5).

Definition publicRoot : ExtendedKey :=
  mkExtendedKey 0 [x00; x00; x00; x00] 0 (be_bytes 32 7)
    (Public (mkPublicKey 5 1)).

(** Process states: 24 words, two words. *)
Definition start : World := world0 words24 "".

Definition twoWords : World := world0 "abandon ability" "".

(** The cipher seeds the sample recoveries return on [start]. *)
Definition recovered : CipherSeed := mkCipherSeed 0 3723 (be_bytes 16 24).

Definition truncatedSeed : CipherSeed := mkCipherSeed 0 3723 (repeat x00 15).

(** The master key built from the entropy of [recovered]. *)
Definition recoveredMaster : ExtendedKey :=
  match @hdkeychain.NewMaster failingChildren (Entropy recovered)
          MainNetParams with
  | Ok k => k
  | Error _ => privateRoot
  end.

End SampleInstances.

(** Further process states and path constants for running the model. *)
Module MoreSamples.
Import SampleInstances.

(** The 24 sample words with the pass phrase the sample recovery
    refuses. *)
Definition wrongPass : World := world0 words24 "wrong".

(** A mnemonic without a space. *)
Definition oneWord : World := world0 "abandonabilityable" "".

(** Other paths for the node key than those of [main]. *)
Definition otherNodePath : Z * Z := (44, 1).

Definition mainNodePath : Z * Z := (BIP0043Purpose, KeyFamilyNodeKey).
Definition mainSegwitPath : Z * Z := (KeyScopeBIP0084_Purpose, 0).
Definition mainNestedPath : Z * Z := (KeyScopeBIP0049Plus_Purpose, 0).

(** What a run adds to an empty trace. *)
Definition eventsOf (r : outcome unit * World) : list event := trace (snd r).

End MoreSamples.

(* ================================================================== *)
(** * Part II: the properties *)

(* ================================================================== *)
(** * Facts about bytes and text *)

Lemma be_bytes_length (n : nat) (z : Z) : List.length (be_bytes n z) = n.
Proof.
  induction n as [|n IH]; simpl; [reflexivity | now rewrite IH].
Qed.

Lemma SerializeCompressed_length (p : PublicKey) :
  List.length (SerializeCompressed p) = 33%nat.
Proof.
  unfold SerializeCompressed. cbn [List.length]. now rewrite be_bytes_length.
Qed.

Lemma append_empty_r (s : string) : (s ++ "")%string = s.
Proof. induction s as [|c s IH]; simpl; [reflexivity | now rewrite IH]. Qed.

Lemma append_assoc (a b c : string) :
  ((a ++ b) ++ c)%string = (a ++ b ++ c)%string.
Proof. induction a as [|x a IH]; simpl; [reflexivity | now rewrite IH]. Qed.

Lemma split_from_length (cur s : string) :
  List.length (split_from cur s) = S (countSpaces s).
Proof.
  revert cur; induction s as [|c s IH]; intros cur; simpl; [reflexivity|].
  destruct (Ascii.eqb c " "%char); simpl; now rewrite IH.
Qed.

Lemma split_from_concat (cur s : string) :
  String.concat " " (split_from cur s) = (cur ++ s)%string.
Proof.
  revert cur; induction s as [|c s IH]; intros cur.
  - simpl. now rewrite append_empty_r.
  - cbn [split_from].
    destruct (Ascii.eqb_spec c " "%char) as [->|Hc].
    + cbn [String.concat].
      pose proof (split_from_length EmptyString s) as Hlen.
      destruct (split_from EmptyString s) as [|p ps] eqn:E; [discriminate|].
      rewrite <- E, IH. reflexivity.
    + rewrite IH, append_assoc. reflexivity.
Qed.

(** [Split] cuts at every space and nowhere else: joining the pieces with
    single spaces gives the string back, and there is one more piece than
    there are spaces. *)
Lemma Split_spec (s : string) :
  String.concat " " (Split s) = s
  /\ List.length (Split s) = S (countSpaces s).
Proof.
  unfold Split. split; [apply split_from_concat | apply split_from_length].
Qed.

Lemma copy_full {A : Type} (dst src : list A) :
  List.length src = List.length dst -> copy dst src = src.
Proof.
  intros H. unfold copy.
  rewrite <- H, firstn_all, H, skipn_all, app_nil_r. reflexivity.
Qed.

Lemma hexdigit_lower (d : Z) : isLowerHexChar (hexdigit d) = true.
Proof.
  unfold hexdigit. generalize (Z.to_nat d) as n; intros n.
  do 16 (destruct n as [|n]; [reflexivity|]).
  destruct n; reflexivity.
Qed.

Lemma EncodeToString_lower (bs : bytes) : isLowerHex (EncodeToString bs) = true.
Proof.
  unfold isLowerHex.
  induction bs as [|b bs IH]; [reflexivity|].
  cbn [EncodeToString list_ascii_of_string forallb].
  now rewrite !hexdigit_lower, IH.
Qed.

Lemma EncodeToString_length (bs : bytes) :
  String.length (EncodeToString bs) = (2 * List.length bs)%nat.
Proof.
  induction bs as [|b bs IH]; [reflexivity|].
  cbn [EncodeToString String.length List.length]. rewrite IH. lia.
Qed.

(* ================================================================== *)
(** * Framing *)

Lemma appendEvents_nil (w : World) : appendEvents w [] = w.
Proof. destruct w; unfold appendEvents; simpl. now rewrite app_nil_r. Qed.

Lemma appendEvents_app (w : World) (es es' : list event) :
  appendEvents (appendEvents w es) es' = appendEvents w (es ++ es').
Proof. unfold appendEvents; simpl. now rewrite app_assoc. Qed.

Lemma frames_ret {A : Type} (a : A) : frames (ret a).
Proof. intros w. unfold ret; simpl. now rewrite appendEvents_nil. Qed.

Lemma frames_emit (e : event) : frames (emit e).
Proof. intros w. reflexivity. Qed.

Lemma frames_bind {A B : Type} (c : M A) (k : A -> M B) :
  frames c -> (forall a, frames (k a)) -> frames (bind c k).
Proof.
  intros Hc Hk w. unfold bind.
  rewrite (Hc w).
  destruct (c emptyWorld) as [[a|code] w0] eqn:E; simpl.
  - rewrite (Hk a (appendEvents w (trace w0))).
    rewrite (Hk a w0).
    simpl. rewrite appendEvents_app. reflexivity.
  - reflexivity.
Qed.

Section Framing.
Context {prims : Primitives}.

Lemma frames_Child (k : ExtendedKey) (i : Z) : frames (Child k i).
Proof. intros w. reflexivity. Qed.

Lemma frames_deriveAccountKey (root : ExtendedKey) (purpose keyFamily : Z) :
  frames (deriveAccountKey root purpose keyFamily).
Proof.
  unfold deriveAccountKey.
  repeat (apply frames_bind; [apply frames_Child | intros [?|?]];
          try apply frames_ret).
Qed.

Lemma frames_deriveFirstKey (root : ExtendedKey) (purpose keyFamily : Z) :
  frames (deriveFirstKey root purpose keyFamily).
Proof.
  unfold deriveFirstKey.
  apply frames_bind; [apply frames_deriveAccountKey | intros [?|?]];
    try apply frames_ret.
  repeat (apply frames_bind; [apply frames_Child | intros [?|?]];
          try apply frames_ret).
Qed.

End Framing.

(* ================================================================== *)
(** * Child derivation *)

Lemma u32_hardened (i : Z) :
  0 <= i < 2 ^ 31 -> u32 (i + HardenedKeyStart) = i + 2 ^ 31.
Proof.
  intros H. unfold u32, HardenedKeyStart. apply Z.mod_small. lia.
Qed.

Lemma u32_small (i : Z) : 0 <= i < 2 ^ 31 -> u32 i = i.
Proof. intros H. unfold u32. apply Z.mod_small. lia. Qed.

Lemma coinType_index_hardened :
  HardenedKeyStart <= u32 (CoinTypeBitcoin + HardenedKeyStart).
Proof. vm_compute. discriminate. Qed.

Section ChildFacts.
Context {prims : Primitives}.

Lemma Child_hardened (k : ExtendedKey) (i : Z) :
  0 <= i < 2 ^ 31 ->
  hdkeychain.Child k (u32 (i + HardenedKeyStart))
  = hdkeychain.deriveChild k i true.
Proof.
  intros H. rewrite (u32_hardened i H). unfold hdkeychain.Child.
  replace (HardenedKeyStart <=? i + 2 ^ 31) with true
    by (symmetry; apply Z.leb_le; unfold HardenedKeyStart; lia).
  f_equal. unfold HardenedKeyStart. lia.
Qed.

Lemma Child_normal (k : ExtendedKey) (i : Z) :
  i < 2 ^ 31 -> hdkeychain.Child k i = hdkeychain.deriveChild k i false.
Proof.
  intros H. unfold hdkeychain.Child.
  replace (HardenedKeyStart <=? i) with false; [reflexivity|].
  symmetry; apply Z.leb_gt. unfold HardenedKeyStart. lia.
Qed.

Lemma deriveChild_public_hardened (k : ExtendedKey) (P : PublicKey) (i : Z) :
  keyMaterial k = Public P ->
  hdkeychain.deriveChild k i true = Error HardenedFromPublicOnly.
Proof. intros H. unfold hdkeychain.deriveChild. now rewrite H. Qed.

Lemma Child_public_hardened (k : ExtendedKey) (P : PublicKey) (i : Z) :
  keyMaterial k = Public P -> HardenedKeyStart <= i ->
  hdkeychain.Child k i = Error HardenedFromPublicOnly.
Proof.
  intros H Hi. unfold hdkeychain.Child.
  replace (HardenedKeyStart <=? i) with true
    by (symmetry; now apply Z.leb_le).
  now apply deriveChild_public_hardened with P.
Qed.

(** A child of a node with public material only has public material
    only. *)
Lemma Child_of_public_is_public (k c : ExtendedKey) (P : PublicKey) (i : Z) :
  keyMaterial k = Public P -> hdkeychain.Child k i = Ok c ->
  exists Q, keyMaterial c = Public Q.
Proof.
  intros H. unfold hdkeychain.Child, hdkeychain.deriveChild. rewrite H.
  destruct (HardenedKeyStart <=? i); [discriminate|].
  cbv zeta.
  match goal with |- context [if ?b then _ else _] => destruct b end;
    [discriminate|].
  intros E. injection E as <-. simpl. eauto.
Qed.

(** [deriveChild] fails with errors of the taxonomy only, never with a
    wrapped one. *)
Lemma deriveChild_error_plain (k : ExtendedKey) (i : Z) (h : bool) (e : error) :
  hdkeychain.deriveChild k i h = Error e -> rootCause e = e.
Proof.
  unfold hdkeychain.deriveChild.
  destruct h, (keyMaterial k); cbv zeta;
    repeat match goal with
           | |- context [if ?b then _ else _] => destruct b
           end;
    intros E; try discriminate; injection E as <-; reflexivity.
Qed.

Lemma Child_run (k : ExtendedKey) (i : Z) (w : World) :
  Child k i w = (Val (hdkeychain.Child k i), appendEvents w [CallChild k i]).
Proof. reflexivity. Qed.

End ChildFacts.

(** One step of a run: the next [Child] call of a chain of binds. *)
Ltac step_Child :=
  unfold bind at 1; rewrite Child_run; cbv beta iota;
  rewrite ?appendEvents_app, <- ?app_assoc.

Section DerivationRuns.
Context {prims : Primitives}.

(** The run of [deriveAccountKey] along the account path. *)
Lemma deriveAccountKey_run (root : ExtendedKey) (purpose keyFamily : Z)
    (w : World) :
  0 <= purpose < 2 ^ 31 -> 0 <= keyFamily < 2 ^ 31 ->
  exists r,
    deriveAccountKey root purpose keyFamily w
    = (Val r, appendEvents w (walkCalls root (accountPath purpose keyFamily)))
    /\ unwrapped r = walk root (accountPath purpose keyFamily).
Proof.
  intros Hp Hf.
  assert (Hc : 0 <= CoinTypeBitcoin < 2 ^ 31) by (unfold CoinTypeBitcoin; lia).
  unfold deriveAccountKey, accountPath.
  cbn [walkCalls walk trueIndex fst snd].
  rewrite (u32_small keyFamily Hf).
  step_Child. rewrite (Child_hardened _ _ Hp), (u32_hardened _ Hp).
  destruct (hdkeychain.deriveChild root purpose true) as [k1|e1] eqn:E1.
  2:{ eexists; split; [reflexivity|]. cbn [unwrapped rootCause].
      now rewrite (deriveChild_error_plain _ _ _ _ E1). }
  step_Child. rewrite (Child_hardened _ _ Hc), (u32_hardened _ Hc).
  destruct (hdkeychain.deriveChild k1 CoinTypeBitcoin true) as [k2|e2] eqn:E2.
  2:{ eexists; split; [reflexivity|]. cbn [unwrapped rootCause].
      now rewrite (deriveChild_error_plain _ _ _ _ E2). }
  step_Child. rewrite (Child_hardened _ _ Hf), (u32_hardened _ Hf).
  destruct (hdkeychain.deriveChild k2 keyFamily true) as [k3|e3] eqn:E3.
  2:{ eexists; split; [reflexivity|]. cbn [unwrapped rootCause].
      now rewrite (deriveChild_error_plain _ _ _ _ E3). }
  eexists; split; reflexivity.
Qed.

Lemma walk_app (k : ExtendedKey) (p q : DerivationPath) :
  walk k (p ++ q)
  = match walk k p with
    | Ok k' => walk k' q
    | Error e => Error e
    end.
Proof.
  revert k; induction p as [|step p IH]; intros k; simpl; [reflexivity|].
  destruct (hdkeychain.deriveChild k (fst step) (snd step)); auto.
Qed.

Lemma walkCalls_app (k : ExtendedKey) (p q : DerivationPath) :
  walkCalls k (p ++ q)
  = walkCalls k p
    ++ match walk k p with
       | Ok k' => walkCalls k' q
       | Error _ => []
       end.
Proof.
  revert k; induction p as [|step p IH]; intros k; simpl; [reflexivity|].
  destruct (hdkeychain.deriveChild k (fst step) (snd step));
    [now rewrite IH | reflexivity].
Qed.

(** The run of [deriveFirstKey] along the leaf path. *)
Lemma deriveFirstKey_run (root : ExtendedKey) (purpose keyFamily : Z)
    (w : World) :
  0 <= purpose < 2 ^ 31 -> 0 <= keyFamily < 2 ^ 31 ->
  exists r,
    deriveFirstKey root purpose keyFamily w
    = (Val r, appendEvents w (walkCalls root (leafPath purpose keyFamily)))
    /\ unwrapped r = leafPublicKey root purpose keyFamily.
Proof.
  intros Hp Hf.
  destruct (deriveAccountKey_run root purpose keyFamily w Hp Hf)
    as (ra & Hrun & Hval).
  unfold deriveFirstKey, leafPublicKey, leafPath.
  rewrite walkCalls_app, walk_app.
  unfold bind at 1. rewrite Hrun. cbv beta iota.
  destruct ra as [acct|e]; cbn [unwrapped] in Hval; rewrite <- Hval.
  2:{ eexists; split; [unfold ret; now rewrite app_nil_r | reflexivity]. }
  cbn [walk walkCalls fst snd trueIndex].
  step_Child. rewrite Child_normal by lia.
  destruct (hdkeychain.deriveChild acct 0 false) as [branch|e1] eqn:E1.
  2:{ eexists; split; [reflexivity|]. cbn [unwrapped].
      now rewrite (deriveChild_error_plain _ _ _ _ E1). }
  step_Child. rewrite Child_normal by lia.
  destruct (hdkeychain.deriveChild branch 0 false) as [leaf|e2] eqn:E2.
  2:{ eexists; split; [reflexivity|]. cbn [unwrapped].
      now rewrite (deriveChild_error_plain _ _ _ _ E2). }
  eexists; split; reflexivity.
Qed.

End DerivationRuns.

(* ================================================================== *)
(** * The path deriver: [deriveAccountKey] and [deriveFirstKey] *)

Section PathDeriver.
Context {prims : Primitives}.

Lemma walkCalls_indices (k leaf : ExtendedKey) (path : DerivationPath) :
  walk k path = Ok leaf ->
  childIndices (walkCalls k path) = map trueIndex path.
Proof.
  revert k; induction path as [|step path IH]; intros k; simpl;
    [reflexivity|].
  destruct (hdkeychain.deriveChild k (fst step) (snd step)) as [c|e];
    [|discriminate].
  intros H. f_equal. now apply IH.
Qed.

Lemma childIndices_app (t t' : list event) :
  childIndices (t ++ t') = childIndices t ++ childIndices t'.
Proof. unfold childIndices. apply flat_map_app. Qed.

(** C2, as amended.  For every root key and every purpose and key family
    below 2^31, [deriveAccountKey] performs the child derivations of the
    account path -- purpose, then the Bitcoin coin type, then the key
    family, all hardened -- each on the node the previous one returned,
    stopping at the first failure, and returns what walking that path
    returns; [deriveFirstKey] continues through the non-hardened child 0
    twice and returns the public key of the leaf.  The suffix is the same
    whatever the purpose and key family. *)
Theorem deriveFirstKey_walks_leaf_path (root : ExtendedKey)
    (purpose keyFamily : Z) (w : World) :
  0 <= purpose < 2 ^ 31 -> 0 <= keyFamily < 2 ^ 31 ->
  (exists r,
     deriveAccountKey root purpose keyFamily w
     = (Val r, appendEvents w (walkCalls root (accountPath purpose keyFamily)))
     /\ unwrapped r = walk root (accountPath purpose keyFamily))
  /\ (exists r,
        deriveFirstKey root purpose keyFamily w
        = (Val r, appendEvents w (walkCalls root (leafPath purpose keyFamily)))
        /\ unwrapped r = leafPublicKey root purpose keyFamily)
  /\ leafPath purpose keyFamily
     = [(purpose, true); (CoinTypeBitcoin, true); (keyFamily, true);
        (0, false); (0, false)]
  /\ forallb isHardened (map trueIndex (accountPath purpose keyFamily)) = true
  /\ (forall pub,
        leafPublicKey root purpose keyFamily = Ok pub ->
        childIndices (walkCalls root (leafPath purpose keyFamily))
        = [purpose + 2 ^ 31; CoinTypeBitcoin + 2 ^ 31; keyFamily + 2 ^ 31;
           0; 0]).
Proof.
  intros Hp Hf.
  split; [now apply deriveAccountKey_run|].
  split; [now apply deriveFirstKey_run|].
  split; [reflexivity|].
  split.
  - cbn [accountPath map trueIndex fst snd forallb].
    unfold isHardened, HardenedKeyStart, CoinTypeBitcoin.
    rewrite !andb_true_iff, !Z.leb_le. lia.
  - intros pub H. unfold leafPublicKey in H.
    destruct (walk root (leafPath purpose keyFamily)) as [leaf|e] eqn:E;
      [|discriminate].
    now rewrite (walkCalls_indices _ _ _ E).
Qed.

(** C4, as amended.  A node that carries public key material only fails
    every hardened child derivation with [HardenedFromPublicOnly];
    [deriveAccountKey] on such a root fails at its first step when the
    purpose is below 2^31, and for every purpose fails after at most two
    child derivations. *)
Theorem hardened_from_public_only_fails (k : ExtendedKey) (P : PublicKey)
    (purpose keyFamily : Z) (w : World) :
  keyMaterial k = Public P ->
  (forall index, hdkeychain.deriveChild k index true
                 = Error HardenedFromPublicOnly)
  /\ (forall i, HardenedKeyStart <= i ->
                hdkeychain.Child k i = Error HardenedFromPublicOnly)
  /\ (0 <= purpose < 2 ^ 31 ->
      deriveAccountKey k purpose keyFamily w
      = (Val (Error (Errorf "unable to derive purpose key; "
                       HardenedFromPublicOnly)),
         appendEvents w [CallChild k (purpose + 2 ^ 31)]))
  /\ (exists e es,
        deriveAccountKey k purpose keyFamily w = (Val (Error e), appendEvents w es)
        /\ (List.length es <= 2)%nat).
Proof.
  intros HP.
  split; [intros index; now apply deriveChild_public_hardened with P|].
  split; [intros i Hi; now apply Child_public_hardened with P|].
  split.
  - intros Hp. unfold deriveAccountKey. step_Child.
    rewrite (Child_hardened _ _ Hp), (u32_hardened _ Hp).
    now rewrite (deriveChild_public_hardened _ P _ HP).
  - unfold deriveAccountKey. step_Child.
    destruct (hdkeychain.Child k (u32 (purpose + HardenedKeyStart)))
      as [k1|e1] eqn:E1.
    + destruct (Child_of_public_is_public _ _ _ _ HP E1) as [Q HQ].
      step_Child.
      rewrite (Child_public_hardened k1 Q _ HQ coinType_index_hardened).
      do 2 eexists; split; [reflexivity|]. simpl; lia.
    + do 2 eexists; split; [reflexivity|]. simpl; lia.
Qed.

(** [deriveAccountKey] and [deriveFirstKey] always return to their
    caller, with a result and with calls that do not depend on the state
    they start from; the calls are child derivations. *)
Lemma deriveAccountKey_returns (root : ExtendedKey) (purpose keyFamily : Z) :
  exists r es,
    (forall w,
       deriveAccountKey root purpose keyFamily w = (Val r, appendEvents w es))
    /\ forallb isDerivation es = true.
Proof.
  unfold deriveAccountKey.
  destruct (hdkeychain.Child root (u32 (purpose + HardenedKeyStart)))
    as [k1|e1] eqn:E1.
  2:{ do 2 eexists; split; [intros w|].
      - step_Child. rewrite E1. reflexivity.
      - reflexivity. }
  destruct (hdkeychain.Child k1 (u32 (CoinTypeBitcoin + HardenedKeyStart)))
    as [k2|e2] eqn:E2.
  2:{ do 2 eexists; split; [intros w|].
      - step_Child. rewrite E1. step_Child. rewrite E2. reflexivity.
      - reflexivity. }
  destruct (hdkeychain.Child k2 (u32 (u32 keyFamily + HardenedKeyStart)))
    as [k3|e3] eqn:E3.
  all: do 2 eexists; split;
    [intros w; step_Child; rewrite E1; step_Child; rewrite E2; step_Child;
     rewrite E3; reflexivity
    | reflexivity].
Qed.

Lemma deriveFirstKey_returns (root : ExtendedKey) (purpose keyFamily : Z) :
  exists r es,
    (forall w,
       deriveFirstKey root purpose keyFamily w = (Val r, appendEvents w es))
    /\ forallb isDerivation es = true.
Proof.
  destruct (deriveAccountKey_returns root purpose keyFamily)
    as ([acct|e] & es & H & Hes); unfold deriveFirstKey.
  2:{ exists (Error e), es; split; [intros w|assumption].
      unfold bind at 1. rewrite H. reflexivity. }
  destruct (hdkeychain.Child acct 0) as [k1|e1] eqn:E1.
  2:{ exists (Error e1), (es ++ [CallChild acct 0]); split; [intros w|].
      - unfold bind at 1. rewrite H. cbv beta iota.
        step_Child. rewrite E1. reflexivity.
      - rewrite forallb_app, Hes. reflexivity. }
  destruct (hdkeychain.Child k1 0) as [k2|e2] eqn:E2.
  all: eexists; exists (es ++ [CallChild acct 0; CallChild k1 0]); split;
    [intros w; unfold bind at 1; rewrite H; cbv beta iota;
     step_Child; rewrite E1; step_Child; rewrite E2; reflexivity
    | rewrite forallb_app, Hes; reflexivity].
Qed.

(** C5.  [deriveFirstKey] is deterministic: the key (or the error) it
    returns for a root, a purpose and a key family is the same in every
    state of the process, in particular when it is invoked a second time
    after the first; it returns to its caller, and leaves the flag
    variables as they were. *)
Theorem deriveFirstKey_deterministic (root : ExtendedKey)
    (purpose keyFamily : Z) (w w' : World) :
  fst (deriveFirstKey root purpose keyFamily w)
  = fst (deriveFirstKey root purpose keyFamily w')
  /\ fst (deriveFirstKey root purpose keyFamily
            (snd (deriveFirstKey root purpose keyFamily w)))
     = fst (deriveFirstKey root purpose keyFamily w)
  /\ (exists r, fst (deriveFirstKey root purpose keyFamily w) = Val r)
  /\ mnemonic (snd (deriveFirstKey root purpose keyFamily w)) = mnemonic w
  /\ aezeedPass (snd (deriveFirstKey root purpose keyFamily w)) = aezeedPass w.
Proof.
  pose proof (frames_deriveFirstKey root purpose keyFamily) as F.
  split; [now rewrite (F w), (F w')|].
  split; [now rewrite (F (snd _)), (F w)|].
  split.
  - destruct (deriveFirstKey_returns root purpose keyFamily)
      as (r & es & H & _).
    exists r. now rewrite H.
  - rewrite (F w); split; reflexivity.
Qed.

Lemma threePaths_run (root : ExtendedKey) (c1 c2 c3 : Z * Z)
    (r1 r2 r3 : result PublicKey) (w : World) :
  returnsKey root c1 r1 -> returnsKey root c2 r2 -> returnsKey root c3 r3 ->
  fst (threePaths root c1 c2 c3 w) = Val (r1, r2, r3).
Proof.
  intros H1 H2 H3. unfold threePaths.
  unfold bind at 1.
  specialize (H1 w).
  destruct (deriveFirstKey root (fst c1) (snd c1) w) as [o1 w1].
  cbn [fst] in H1; subst o1.
  unfold bind at 1.
  specialize (H2 w1).
  destruct (deriveFirstKey root (fst c2) (snd c2) w1) as [o2 w2].
  cbn [fst] in H2; subst o2.
  unfold bind at 1.
  specialize (H3 w2).
  destruct (deriveFirstKey root (fst c3) (snd c3) w2) as [o3 w3].
  cbn [fst] in H3; subst o3.
  reflexivity.
Qed.

Lemma returnsKey_exists (root : ExtendedKey) (c : Z * Z) :
  exists r, returnsKey root c r.
Proof.
  destruct (deriveFirstKey_returns root (fst c) (snd c)) as (r & es & H & _).
  exists r. intros w. now rewrite H.
Qed.

(** C6.  Path independence: in the three derivations of a run, each key
    is what [deriveFirstKey] returns for the root and for the purpose and
    key family of its own path, in any state; changing the purpose and key
    family of one path leaves the keys of the other two paths as they
    were. *)
Theorem path_independence (root : ExtendedKey) (c1 c2 c3 : Z * Z)
    (w : World) :
  exists r1 r2 r3,
    fst (threePaths root c1 c2 c3 w) = Val (r1, r2, r3)
    /\ returnsKey root c1 r1 /\ returnsKey root c2 r2
    /\ returnsKey root c3 r3
    /\ (forall c1' w', exists r1',
          fst (threePaths root c1' c2 c3 w') = Val (r1', r2, r3))
    /\ (forall c2' w', exists r2',
          fst (threePaths root c1 c2' c3 w') = Val (r1, r2', r3))
    /\ (forall c3' w', exists r3',
          fst (threePaths root c1 c2 c3' w') = Val (r1, r2, r3')).
Proof.
  destruct (returnsKey_exists root c1) as [r1 H1].
  destruct (returnsKey_exists root c2) as [r2 H2].
  destruct (returnsKey_exists root c3) as [r3 H3].
  exists r1, r2, r3.
  split; [now apply threePaths_run|].
  repeat (split; [assumption|]).
  repeat split; intros c' w'; destruct (returnsKey_exists root c') as [r' H'];
    exists r'; now apply threePaths_run.
Qed.

End PathDeriver.

(* ================================================================== *)
(** * The runs of [main], step by step *)

Section StepsOfMain.
Context {prims : Primitives}.

Local Open Scope string_scope.

Lemma derives_exists (root : ExtendedKey) (c : Z * Z) :
  exists r d, derives root c r d.
Proof.
  destruct (deriveFirstKey_returns root (fst c) (snd c)) as (r & d & H).
  now exists r, d.
Qed.

Lemma emit_run (e : event) (w : World) :
  emit e w = (Val tt, appendEvents w [e]).
Proof. reflexivity. Qed.

Lemma Fatalf_run {A : Type} (message : string) (w : World) :
  @Fatalf A message w = (Exited 1, appendEvents w [Stderr message]).
Proof. reflexivity. Qed.

Lemma ToCipherSeed_run (m : list string) (password : bytes) (w : World) :
  ToCipherSeed m password w
  = (Val (decipher m password), appendEvents w [CallToCipherSeed m password]).
Proof. reflexivity. Qed.

Lemma NewMaster_run (seed : bytes) (net : Params) (w : World) :
  NewMaster seed net w
  = (Val (hdkeychain.NewMaster seed net),
     appendEvents w [CallNewMaster seed net]).
Proof. reflexivity. Qed.

End StepsOfMain.

Section MainSound.
Context {prims : Primitives}.

Local Open Scope string_scope.

Ltac step_with lem :=
  unfold bind at 1; rewrite lem; cbv beta iota zeta;
  rewrite ?appendEvents_app, <- ?app_assoc.

Ltac step_derive root c r d Hd :=
  destruct (derives_exists root c) as (r & d & Hd);
  unfold bind at 1; rewrite (proj1 Hd); cbv beta iota zeta;
  rewrite ?appendEvents_app, <- ?app_assoc.

Ltac finish := do 2 eexists; split; [reflexivity|].

Ltac fatal :=
  cbv beta iota zeta; rewrite Fatalf_run, ?appendEvents_app, <- ?app_assoc;
  finish.

(** Every run of [main] is one of the runs of [Run]. *)
Lemma mainWith_sound (c1 c2 c3 : Z * Z) (w : World) :
  exists o es,
    mainWith c1 c2 c3 w = (o, appendEvents w es) /\ Run c1 c2 c3 w o es.
Proof.
  unfold mainWith.
  unfold bind at 1, readFlag at 1. cbv beta iota zeta.
  destruct (String.eqb_spec (mnemonic w) "") as [Hm|Hm].
  { finish. now apply RunUsage. }
  unfold bind at 1.
  destruct (Nat.eqb_spec (List.length (Split (mnemonic w))) NummnemonicWords)
    as [Hn|Hn]; cbv [negb].
  2:{ fatal. now apply RunWordCount. }
  assert (Hw : wellCounted w) by (split; assumption).
  unfold ret at 1. cbv beta iota zeta.
  unfold bind at 1, readFlag at 1. cbv beta iota zeta.
  change (copy (repeat "" NummnemonicWords) (Split (mnemonic w)))
    with (phraseOf w).
  change (if String.eqb (aezeedPass w) "" then []
          else bytes_of_string (aezeedPass w))
    with (passwordOf w).
  step_with ToCipherSeed_run.
  destruct (decipher (phraseOf w) (passwordOf w)) as [seed|e] eqn:Hseed.
  2:{ fatal.
      now apply RunDecryptFailed. }
  cbv beta iota zeta. unfold bind at 1, Printf at 1. rewrite emit_run. cbv beta iota zeta.
  rewrite ?appendEvents_app, <- ?app_assoc.
  fold (birthdayLine seed).
  step_with NewMaster_run.
  change ([CallToCipherSeed (phraseOf w) (passwordOf w)] ++
          [Stdout (birthdayLine seed)] ++
          [CallNewMaster (Entropy seed) MainNetParams])%list
    with (prologue w seed).
  destruct (hdkeychain.NewMaster (Entropy seed) MainNetParams)
    as [root|e] eqn:Hroot.
  2:{ fatal.
      now apply RunMasterFailed. }
  cbv beta iota zeta. step_derive root c1 r1 d1 H1.
  destruct r1 as [nodePub|e].
  2:{ fatal.
      now apply RunNodeKeyFailed with root. }
  cbv beta iota zeta. step_derive root c2 r2 d2 H2.
  destruct r2 as [k2|e].
  2:{ fatal.
      now apply RunSegwitKeyFailed with root nodePub. }
  destruct (keyToP2wkhAddr k2) as [a2|e] eqn:Ha2.
  2:{ fatal.
      now apply RunSegwitAddrFailed with root nodePub k2. }
  cbv beta iota zeta. step_derive root c3 r3 d3 H3.
  destruct r3 as [k3|e].
  2:{ fatal.
      now apply RunNestedKeyFailed with root nodePub k2 a2. }
  destruct (keyToNp2wkhAddr k3) as [a3|e] eqn:Ha3.
  2:{ fatal.
      now apply RunNestedAddrFailed with root nodePub k2 k3 a2. }
  cbv beta iota zeta. unfold Println.
  step_with emit_run. step_with emit_run. rewrite emit_run.
  rewrite ?appendEvents_app, <- ?app_assoc.
  finish.
  now apply RunReport with root k2 k3.
Qed.

End MainSound.

(* ================================================================== *)
(** * Events of a run *)

Lemma stdoutOf_app (t t' : list event) :
  stdoutOf (t ++ t') = stdoutOf t ++ stdoutOf t'.
Proof. unfold stdoutOf. apply flat_map_app. Qed.

Lemma stderrOf_app (t t' : list event) :
  stderrOf (t ++ t') = stderrOf t ++ stderrOf t'.
Proof. unfold stderrOf. apply flat_map_app. Qed.

Lemma derivations_silent (d : list event) :
  forallb isDerivation d = true -> stdoutOf d = [] /\ stderrOf d = [].
Proof.
  induction d as [|e d IH]; simpl; [auto|].
  destruct e; simpl; try discriminate. exact IH.
Qed.

Lemma derivations_mastersOn (net : Params) (d : list event) :
  forallb isDerivation d = true -> mastersOn net d.
Proof.
  induction d as [|e d IH]; simpl; intros H; [constructor|].
  destruct e; simpl in H; try discriminate.
  constructor; [exact I | now apply IH].
Qed.

Section EventsOfRuns.
Context {prims : Primitives}.

Lemma derives_stdout (root : ExtendedKey) (c : Z * Z) (r : result PublicKey)
    (d : list event) :
  derives root c r d -> stdoutOf d = [].
Proof. intros [_ H]. now apply derivations_silent. Qed.

Lemma derives_stderr (root : ExtendedKey) (c : Z * Z) (r : result PublicKey)
    (d : list event) :
  derives root c r d -> stderrOf d = [].
Proof. intros [_ H]. now apply derivations_silent. Qed.

(** [deriveFirstKey] returns one result per root and path. *)
Lemma derives_functional (root : ExtendedKey) (c : Z * Z)
    (r r' : result PublicKey) (d d' : list event) :
  derives root c r d -> derives root c r' d' -> r = r' /\ d = d'.
Proof.
  intros [H _] [H' _].
  specialize (H emptyWorld). rewrite (H' emptyWorld) in H.
  injection H as Hr Hd. now split.
Qed.

(** On a path within range a derived key is the public key of the leaf
    of the path. *)
Lemma derives_leaf (root : ExtendedKey) (c : Z * Z) (pub : PublicKey)
    (d : list event) :
  0 <= fst c < 2 ^ 31 -> 0 <= snd c < 2 ^ 31 ->
  derives root c (Ok pub) d ->
  leafPublicKey root (fst c) (snd c) = Ok pub
  /\ d = walkCalls root (leafPath (fst c) (snd c)).
Proof.
  intros Hp Hf [H _].
  destruct (deriveFirstKey_run root (fst c) (snd c) emptyWorld Hp Hf)
    as (r & Hrun & Hr).
  rewrite (H emptyWorld) in Hrun. injection Hrun as <- Hd.
  now split.
Qed.

(** A state has one run: the rules of [Run] exclude one another, and
    each fixes the outcome and the events. *)
Lemma Run_functional (c1 c2 c3 : Z * Z) (w : World)
    (o o' : outcome unit) (es es' : list event) :
  Run c1 c2 c3 w o es -> Run c1 c2 c3 w o' es' -> o = o' /\ es = es'.
Proof.
  intros R R'.
  inversion R; subst; inversion R'; subst;
    repeat match goal with
           | H : wellCounted _ |- _ => destruct H
           end;
    try contradiction;
    repeat match goal with
           | H : decipher ?a ?b = _, H' : decipher ?a ?b = _ |- _ =>
               rewrite H in H';
               first [discriminate H' | injection H' as <-]
           | H : hdkeychain.NewMaster ?a ?b = _,
             H' : hdkeychain.NewMaster ?a ?b = _ |- _ =>
               rewrite H in H';
               first [discriminate H' | injection H' as <-]
           | H : keyToP2wkhAddr ?a = _, H' : keyToP2wkhAddr ?a = _ |- _ =>
               rewrite H in H';
               first [discriminate H' | injection H' as <-]
           | H : keyToNp2wkhAddr ?a = _, H' : keyToNp2wkhAddr ?a = _ |- _ =>
               rewrite H in H';
               first [discriminate H' | injection H' as <-]
           | H : derives ?r ?c _ _, H' : derives ?r ?c _ _ |- _ =>
               let E := fresh "E" in
               let E' := fresh "E" in
               destruct (derives_functional _ _ _ _ _ _ H H') as [E E'];
               clear H';
               first [discriminate E | injection E as <-];
               subst
           end;
    split; reflexivity.
Qed.

(** The child derivations up to a failing step are child derivations
    only. *)
Lemma FailingStep_derivations (seed : CipherSeed) (prefix : string)
    (e : error) (d : list event) :
  FailingStep seed prefix e d -> forallb isDerivation d = true.
Proof.
  intros F. destruct F; rewrite ?forallb_app;
    repeat match goal with
           | H : derives _ _ _ _ |- _ =>
               rewrite (proj2 H); clear H
           end;
    reflexivity.
Qed.

(** A failing step gives the rule of [Run] that ends at it. *)
Lemma FailingStep_Run (w : World) (seed : CipherSeed) (prefix : string)
    (e : error) (d : list event) :
  wellCounted w ->
  decipher (phraseOf w) (passwordOf w) = Ok seed ->
  FailingStep seed prefix e d ->
  Run (BIP0043Purpose, KeyFamilyNodeKey) (KeyScopeBIP0084_Purpose, 0)
    (KeyScopeBIP0049Plus_Purpose, 0) w (Exited 1)
    (prologue w seed ++ d ++ [Stderr (prefix ++ errorString e)%string]).
Proof.
  intros Hw Hseed F. destruct F; rewrite <- ?app_assoc.
  - now apply RunMasterFailed.
  - now apply RunNodeKeyFailed with (root := root).
  - now apply RunSegwitKeyFailed with (root := root) (nodePub := nodePub).
  - now apply RunSegwitAddrFailed
      with (root := root) (nodePub := nodePub) (k2 := k2).
  - now apply RunNestedKeyFailed
      with (root := root) (nodePub := nodePub) (k2 := k2) (a2 := a2).
  - now apply RunNestedAddrFailed
      with (root := root) (nodePub := nodePub) (k2 := k2) (k3 := k3)
           (a2 := a2).
Qed.

End EventsOfRuns.

(* ================================================================== *)
(** * The orchestrator: [main] *)

Section Orchestrator.
Context {prims : Primitives}.

Local Open Scope string_scope.

Lemma main_sound (w : World) :
  exists o es,
    main w = (o, appendEvents w es)
    /\ Run (BIP0043Purpose, KeyFamilyNodeKey) (KeyScopeBIP0084_Purpose, 0)
         (KeyScopeBIP0049Plus_Purpose, 0) w o es.
Proof. apply mainWith_sound. Qed.

Lemma phraseOf_wellCounted (w : World) :
  wellCounted w -> phraseOf w = Split (mnemonic w).
Proof.
  intros [_ H]. unfold phraseOf. apply copy_full.
  now rewrite repeat_length.
Qed.

(** C10.  The mnemonic flag is split at single spaces.  With an empty
    flag [main] prints the flag defaults and returns: status 0, nothing on
    standard output, no call.  With a non-empty flag that does not split
    into exactly 24 words it reports the count and exits with status 1
    before any decryption or derivation; with exactly 24 words the words
    go to the cipher-seed recovery. *)
Theorem mnemonic_word_count_gate (w : World) :
  (String.concat " " (Split (mnemonic w)) = mnemonic w
   /\ List.length (Split (mnemonic w)) = S (countSpaces (mnemonic w)))
  /\ NummnemonicWords = 24%nat
  /\ (mnemonic w = "" ->
      main w = (Val tt, appendEvents w [Stderr flagDefaults]))
  /\ (mnemonic w <> "" ->
      List.length (Split (mnemonic w)) <> NummnemonicWords ->
      main w
      = (Exited 1,
         appendEvents w
           [Stderr ("expected 24 words, instead got "
                    ++ fmt_uint (Z.of_nat (List.length (Split (mnemonic w)))))]))
  /\ (mnemonic w <> "" ->
      List.length (Split (mnemonic w)) = NummnemonicWords ->
      exists o es,
        main w
        = (o, appendEvents w
                (CallToCipherSeed (Split (mnemonic w)) (passwordOf w) :: es))).
Proof.
  split; [apply Split_spec|].
  split; [reflexivity|].
  destruct (main_sound w) as (o & es & Hmain & Hrun).
  rewrite Hmain.
  split; [|split].
  - intros Hm. inversion Hrun; subst;
      try (match goal with H : wellCounted w |- _ => destruct H end);
      try contradiction.
    reflexivity.
  - intros Hm Hn. inversion Hrun; subst;
      try (match goal with H : wellCounted w |- _ => destruct H end);
      try contradiction.
    reflexivity.
  - intros Hm Hn.
    assert (Hw : wellCounted w) by (split; assumption).
    rewrite <- (phraseOf_wellCounted w Hw).
    inversion Hrun; subst; try contradiction; unfold prologue;
      eexists; eexists; reflexivity.
Qed.

Ltac silence :=
  repeat match goal with
         | H : derives _ _ _ _ |- _ =>
             rewrite ?(derives_stdout _ _ _ _ H), ?(derives_stderr _ _ _ _ H);
             clear H
         end.

(** C1, as amended.  When a step after the recovery of the cipher seed
    fails (master-key construction, one of the three key derivations, one
    of the two address encodings) with an error [e], [main] ends with
    status 1 after exactly these events: the recovery, the
    wallet-birthday line on standard output, master-key construction, the
    child derivations made up to the failing step, and one line on
    standard error, the text of the failing step followed by the text of
    [e].  So the failing step and its cause are reported, the
    wallet-birthday line is printed before master-key construction and is
    all there is on standard output, and none of the key and address
    lines is printed. *)
Theorem failure_after_recovery (w : World) (seed : CipherSeed)
    (prefix : string) (e : error) (d : list event) :
  wellCounted w ->
  decipher (phraseOf w) (passwordOf w) = Ok seed ->
  FailingStep seed prefix e d ->
  let birthday :=
    "Wallet Birthday: " ++ fmtBirthdayTime seed
    ++ ", Internal Version: " ++ fmt_uint (InternalVersion seed) in
  let es :=
    ([CallToCipherSeed (phraseOf w) (passwordOf w);
      Stdout birthday;
      CallNewMaster (Entropy seed) MainNetParams]
     ++ d ++ [Stderr (prefix ++ errorString e)])%list in
  main w = (Exited 1, appendEvents w es)
  /\ forallb isDerivation d = true
  /\ stdoutOf es = [birthday]
  /\ stderrOf es = [prefix ++ errorString e].
Proof.
  intros Hw Hseed F birthday es.
  pose proof (FailingStep_derivations _ _ _ _ F) as Hd.
  destruct (main_sound w) as (o & es' & Hmain & Hrun).
  destruct (Run_functional _ _ _ _ _ _ _ _ Hrun
              (FailingStep_Run w seed prefix e d Hw Hseed F)) as [-> ->].
  split; [exact Hmain|].
  split; [exact Hd|].
  unfold es.
  rewrite !stdoutOf_app, !stderrOf_app.
  rewrite (proj1 (derivations_silent d Hd)), (proj2 (derivations_silent d Hd)).
  split; reflexivity.
Qed.

(** C7.  Master-key construction from an entropy buffer that has not the
    fixed size of 16 bytes fails with [InvalidSeedLength] and returns no
    key; the call is the only event, so no child derivation has taken
    place; and a run of [main] whose recovered entropy has another size
    ends there, with the failure reported, status 1, and no derivation and
    no key line. *)
Theorem truncated_entropy_refused (seed : bytes) (net : Params) (w : World) :
  List.length seed <> EntropySize ->
  EntropySize = 16%nat
  /\ hdkeychain.NewMaster seed net = Error InvalidSeedLength
  /\ NewMaster seed net w
     = (Val (Error InvalidSeedLength), appendEvents w [CallNewMaster seed net])
  /\ (forall cs,
        wellCounted w ->
        decipher (phraseOf w) (passwordOf w) = Ok cs ->
        Entropy cs = seed ->
        exists es,
          main w = (Exited 1, appendEvents w es)
          /\ childIndices es = []
          /\ stderrOf es = ["unable to make HD priv root: InvalidSeedLength"]
          /\ stdoutOf es = [birthdayLine cs]).
Proof.
  intros Hlen.
  assert (HM : hdkeychain.NewMaster seed net = Error InvalidSeedLength).
  { unfold hdkeychain.NewMaster.
    destruct (Nat.eqb_spec (List.length seed) EntropySize); [contradiction|].
    reflexivity. }
  split; [reflexivity|]. split; [exact HM|].
  split; [rewrite NewMaster_run, HM; reflexivity|].
  intros cs [Hm Hn] Hseed <-.
  assert (HM' : hdkeychain.NewMaster (Entropy cs) MainNetParams
                = Error InvalidSeedLength).
  { unfold hdkeychain.NewMaster.
    destruct (Nat.eqb_spec (List.length (Entropy cs)) EntropySize);
      [contradiction|reflexivity]. }
  destruct (main_sound w) as (o & es & Hmain & Hrun).
  rewrite Hmain.
  inversion Hrun; subst; try contradiction; try congruence.
  match goal with
  | H : decipher _ _ = Ok ?s |- _ => rewrite Hseed in H; injection H as <-
  end.
  match goal with
  | H : hdkeychain.NewMaster _ _ = Error ?e |- _ =>
      rewrite HM' in H; injection H as <-
  end.
  eexists; split; [reflexivity|]. repeat split.
Qed.

(** C8, as amended.  A run of [main] that reaches its end with a mnemonic
    given prints four lines on standard output, in this order: the wallet
    birthday and internal version as the cipher-seed recovery gave them;
    "Node pub key:", two spaces, and the 66 lowercase hexadecimal digits
    of the 33-byte compressed node key; "First p2wkh address:", two
    spaces, and the native witness address; "First n2pwkh address", one
    space, and the wrapped witness address.  Nothing goes to standard
    error. *)
Theorem report_lines (w w' : World) :
  mnemonic w <> "" ->
  main w = (Val tt, w') ->
  exists seed root nodePub k2 k3 a2 a3 es,
    w' = appendEvents w es
    /\ decipher (phraseOf w) (passwordOf w) = Ok seed
    /\ hdkeychain.NewMaster (Entropy seed) MainNetParams = Ok root
    /\ leafPublicKey root BIP0043Purpose KeyFamilyNodeKey = Ok nodePub
    /\ leafPublicKey root KeyScopeBIP0084_Purpose 0 = Ok k2
    /\ keyToP2wkhAddr k2 = Ok a2
    /\ leafPublicKey root KeyScopeBIP0049Plus_Purpose 0 = Ok k3
    /\ keyToNp2wkhAddr k3 = Ok a3
    /\ stdoutOf es
       = ["Wallet Birthday: " ++ fmtBirthdayTime seed
          ++ ", Internal Version: " ++ fmt_uint (InternalVersion seed);
          "Node pub key:  " ++ EncodeToString (SerializeCompressed nodePub);
          "First p2wkh address:  " ++ btcutil.EncodeAddress a2;
          "First n2pwkh address " ++ btcutil.EncodeAddress a3]
    /\ stderrOf es = []
    /\ List.length (SerializeCompressed nodePub) = 33%nat
    /\ String.length (EncodeToString (SerializeCompressed nodePub)) = 66%nat
    /\ isLowerHex (EncodeToString (SerializeCompressed nodePub)) = true.
Proof.
  intros Hm Hmain.
  destruct (main_sound w) as (o & es & Hmain' & Hrun).
  rewrite Hmain in Hmain'. injection Hmain' as <- ->.
  inversion Hrun; subst; try contradiction.
  exists seed, root, nodePub, k2, k3, a2, a3.
  eexists. split; [reflexivity|].
  repeat match goal with
         | H : derives _ (?p, ?f) (Ok _) _ |- _ =>
             let L := fresh "L" in
             assert (L := proj1 (derives_leaf _ (p, f) _ _
                                   ltac:(vm_compute; split; congruence)
                                   ltac:(vm_compute; split; congruence) H));
             cbn [fst snd] in L;
             apply derives_stdout in H as ?;
             apply derives_stderr in H
         end.
  repeat (split; [assumption|]).
  rewrite !stdoutOf_app, !stderrOf_app.
  repeat match goal with H : stdoutOf _ = [] |- _ => rewrite H; clear H end.
  repeat match goal with H : stderrOf _ = [] |- _ => rewrite H; clear H end.
  split; [reflexivity|]. split; [reflexivity|].
  split; [apply SerializeCompressed_length|].
  split; [|apply EncodeToString_lower].
  now rewrite EncodeToString_length, SerializeCompressed_length.
Qed.

(** The node-key line never is the label with a single space followed
    by hexadecimal digits. *)
Lemma nodeKeyLine_two_spaces (pub : PublicKey) (h : string) :
  isLowerHex h = true -> nodeKeyLine pub <> "Node pub key: " ++ h.
Proof.
  intros Hh E. unfold nodeKeyLine in E.
  change ("Node pub key:  " ++ EncodeToString (SerializeCompressed pub))
    with ("Node pub key: "
          ++ String " "%char (EncodeToString (SerializeCompressed pub))) in E.
  assert (I : forall a b c, a ++ b = a ++ c -> b = c).
  { intros a b c. induction a as [|x a IH]; simpl; intros K; [exact K|].
    injection K as K. now apply IH. }
  apply I in E. subst h. discriminate Hh.
Qed.

(** A run that reaches the end of [main] with a mnemonic given is a run
    of the last rule. *)
Lemma Run_report_inv (c1 c2 c3 : Z * Z) (w : World) (es : list event) :
  mnemonic w <> "" ->
  Run c1 c2 c3 w (Val tt) es ->
  exists seed root nodePub k2 k3 a2 a3 d1 d2 d3,
    decipher (phraseOf w) (passwordOf w) = Ok seed
    /\ hdkeychain.NewMaster (Entropy seed) MainNetParams = Ok root
    /\ derives root c1 (Ok nodePub) d1
    /\ derives root c2 (Ok k2) d2
    /\ keyToP2wkhAddr k2 = Ok a2
    /\ derives root c3 (Ok k3) d3
    /\ keyToNp2wkhAddr k3 = Ok a3
    /\ es = (prologue w seed ++ d1 ++ d2 ++ d3
             ++ [Stdout (nodeKeyLine nodePub); Stdout (segwitLine a2);
                 Stdout (nestedLine a3)])%list.
Proof.
  intros Hm R. inversion R; subst; try contradiction.
  exists seed, root, nodePub, k2, k3, a2, a3, d1, d2, d3.
  repeat (split; [assumption|]). reflexivity.
Qed.

(** X11.  The same at the level of the program: of two complete runs from one
    state, the line of a path whose purpose and key family are the same in
    both is the same in both, whatever the other two paths are. *)
Lemma report_lines_independent (c1 c2 c3 c1' c2' c3' : Z * Z)
    (w w1 w1' : World) :
  mnemonic w <> "" ->
  mainWith c1 c2 c3 w = (Val tt, w1) ->
  mainWith c1' c2' c3' w = (Val tt, w1') ->
  exists es es' l0 l1 l2 l3 l1' l2' l3',
    w1 = appendEvents w es /\ w1' = appendEvents w es'
    /\ stdoutOf es = [l0; l1; l2; l3]
    /\ stdoutOf es' = [l0; l1'; l2'; l3']
    /\ (c1 = c1' -> l1 = l1')
    /\ (c2 = c2' -> l2 = l2')
    /\ (c3 = c3' -> l3 = l3').
Proof.
  intros Hm Hrun1 Hrun2.
  destruct (mainWith_sound c1 c2 c3 w) as (o & es & E & R).
  rewrite Hrun1 in E. injection E as <- ->.
  destruct (mainWith_sound c1' c2' c3' w) as (o' & es' & E' & R').
  rewrite Hrun2 in E'. injection E' as <- ->.
  destruct (Run_report_inv _ _ _ _ _ Hm R)
    as (seed & root & p1 & p2 & p3 & a2 & a3 & d1 & d2 & d3
        & Hs & Hr & D1 & D2 & A2 & D3 & A3 & ->).
  destruct (Run_report_inv _ _ _ _ _ Hm R')
    as (seed' & root' & q1 & q2 & q3 & b2 & b3 & e1 & e2 & e3
        & Hs' & Hr' & E1 & E2 & B2 & E3 & B3 & ->).
  rewrite Hs in Hs'. injection Hs' as <-.
  rewrite Hr in Hr'. injection Hr' as <-.
  do 2 eexists.
  exists (birthdayLine seed), (nodeKeyLine p1), (segwitLine a2),
    (nestedLine a3), (nodeKeyLine q1), (segwitLine b2), (nestedLine b3).
  split; [reflexivity|]. split; [reflexivity|].
  rewrite !stdoutOf_app.
  assert (D : forall c c' r r' d d',
             derives root c (Ok r) d -> derives root c' (Ok r') d' ->
             c = c' -> r = r').
  { intros c c' r r' d d' A B <-.
    destruct (derives_functional _ _ _ _ _ _ A B) as [E _]. congruence. }
  assert (K1 := D _ _ _ _ _ _ D1 E1).
  assert (K2 := D _ _ _ _ _ _ D2 E2).
  assert (K3 := D _ _ _ _ _ _ D3 E3).
  silence.
  split; [reflexivity|]. split; [reflexivity|].
  split; [intros E; now rewrite (K1 E)|].
  split; intros E.
  - rewrite (K2 E) in *. congruence.
  - rewrite (K3 E) in *. congruence.
Qed.

End Orchestrator.

(* ================================================================== *)
(** * The address builder *)

Section AddressBuilder.
Context {prims : Primitives}.

Local Open Scope string_scope.

Lemma keyToP2wkhAddr_ok (pub : PublicKey) :
  keyToP2wkhAddr pub
  = Ok (AddressWitnessPubKeyHash "bc" 0 (Hash160 (SerializeCompressed pub))).
Proof.
  unfold keyToP2wkhAddr, btcutil.NewAddressWitnessPubKeyHash.
  now rewrite Hash160_length.
Qed.

Lemma keyToNp2wkhAddr_ok (pub : PublicKey) :
  keyToNp2wkhAddr pub = Ok (AddressScriptHash (Hash160 (witnessScript pub)) 5).
Proof.
  unfold keyToNp2wkhAddr, btcutil.NewAddressWitnessPubKeyHash.
  rewrite Hash160_length. cbn [Nat.eqb txscript.PayToAddrScript].
  unfold btcutil.NewAddressScriptHash, btcutil.NewAddressScriptHashFromHash.
  now rewrite Hash160_length.
Qed.

Lemma Run_mastersOn (c1 c2 c3 : Z * Z) (w : World) (o : outcome unit)
    (es : list event) :
  Run c1 c2 c3 w o es -> mastersOn MainNetParams es.
Proof.
  intros H. unfold mastersOn.
  inversion H; subst; rewrite ?Forall_app; unfold prologue;
    repeat match goal with
           | H : derives _ _ _ _ |- _ =>
               apply proj2 in H;
               apply (derivations_mastersOn MainNetParams) in H
           end;
    repeat split; try assumption; repeat constructor.
Qed.

(** C9.  The address and key operations use the main network's parameters
    whatever their input: [keyToP2wkhAddr] and [keyToNp2wkhAddr] take a
    key and nothing else, and for every key return the native witness
    address under the main network's human-readable part and the
    script-hash address under the main network's script-hash version --
    never the test network's; in every run of [main] the master key is
    built for the main network. *)
Theorem mainnet_unconditionally (pub : PublicKey) (w : World) :
  keyToP2wkhAddr pub
  = btcutil.NewAddressWitnessPubKeyHash (Hash160 (SerializeCompressed pub))
      MainNetParams
  /\ keyToP2wkhAddr pub
     = Ok (AddressWitnessPubKeyHash (Bech32HRPSegwit MainNetParams) 0
             (Hash160 (SerializeCompressed pub)))
  /\ keyToNp2wkhAddr pub
     = btcutil.NewAddressScriptHash (witnessScript pub) MainNetParams
  /\ keyToNp2wkhAddr pub
     = Ok (AddressScriptHash (Hash160 (witnessScript pub))
             (ScriptHashAddrID MainNetParams))
  /\ keyToP2wkhAddr pub
     <> btcutil.NewAddressWitnessPubKeyHash
          (Hash160 (SerializeCompressed pub)) TestNet3Params
  /\ keyToNp2wkhAddr pub
     <> btcutil.NewAddressScriptHash (witnessScript pub) TestNet3Params
  /\ exists o es,
       main w = (o, appendEvents w es) /\ mastersOn MainNetParams es.
Proof.
  split; [reflexivity|].
  split; [apply keyToP2wkhAddr_ok|].
  split.
  { rewrite keyToNp2wkhAddr_ok.
    unfold btcutil.NewAddressScriptHash, btcutil.NewAddressScriptHashFromHash.
    now rewrite Hash160_length. }
  split; [apply keyToNp2wkhAddr_ok|].
  split.
  { rewrite keyToP2wkhAddr_ok. unfold btcutil.NewAddressWitnessPubKeyHash.
    rewrite Hash160_length. discriminate. }
  split.
  { rewrite keyToNp2wkhAddr_ok.
    unfold btcutil.NewAddressScriptHash, btcutil.NewAddressScriptHashFromHash.
    rewrite Hash160_length. discriminate. }
  destruct (main_sound w) as (o & es & Hmain & Hrun).
  exists o, es. split; [assumption|]. now apply Run_mastersOn in Hrun.
Qed.

(** The composition of the wrapped witness address.  For every public
    key it is the legacy script-hash encoding of the hash160 of the
    serialized witness-version-0 program built from the hash160 of the
    compressed key; the script that is hashed is that program of 22
    bytes, not the compressed key and not the raw public-key hash.
    Whether the address differs from the script-hash encoding of the raw
    public-key hash is the question whether hash160 of the program
    differs from the public-key hash: a question about hash160, which
    [keyToNp2wkhAddr] takes as it is. *)
Lemma wrapped_address_composition (pub : PublicKey) :
  let pubKeyHash := Hash160 (SerializeCompressed pub) in
  txscript.PayToAddrScript (AddressWitnessPubKeyHash "bc" 0 pubKeyHash)
  = Ok (witnessScript pub)
  /\ keyToNp2wkhAddr pub
     = btcutil.NewAddressScriptHashFromHash (Hash160 (witnessScript pub))
         MainNetParams
  /\ List.length (witnessScript pub) = 22%nat
  /\ witnessScript pub <> SerializeCompressed pub
  /\ witnessScript pub <> pubKeyHash
  /\ (keyToNp2wkhAddr pub
      <> btcutil.NewAddressScriptHashFromHash pubKeyHash MainNetParams
      <-> Hash160 (witnessScript pub) <> pubKeyHash).
Proof.
  intros pubKeyHash.
  assert (L : List.length (witnessScript pub) = 22%nat).
  { unfold witnessScript. cbn [List.length]. now rewrite Hash160_length. }
  split; [reflexivity|].
  split.
  { rewrite keyToNp2wkhAddr_ok. unfold btcutil.NewAddressScriptHashFromHash.
    now rewrite Hash160_length. }
  split; [exact L|].
  split.
  { intros E. rewrite E, SerializeCompressed_length in L. discriminate. }
  split.
  { intros E. rewrite E in L. unfold pubKeyHash in L.
    rewrite Hash160_length in L. discriminate. }
  rewrite keyToNp2wkhAddr_ok. unfold btcutil.NewAddressScriptHashFromHash.
  unfold pubKeyHash. rewrite Hash160_length. cbn [Nat.eqb].
  split; intros H E; apply H; [now rewrite E | now injection E].
Qed.

End AddressBuilder.


(* ================================================================== *)
(** * Derivations for every purpose and key family *)

Section ChainRuns.
Context {prims : Primitives}.

Lemma Child_error_plain (k : ExtendedKey) (i : Z) (e : error) :
  hdkeychain.Child k i = Error e -> rootCause e = e.
Proof.
  unfold hdkeychain.Child.
  destruct (HardenedKeyStart <=? i); apply deriveChild_error_plain.
Qed.

Lemma childChain_app (k : ExtendedKey) (p q : list Z) :
  childChain k (p ++ q)
  = match childChain k p with
    | Ok k' => childChain k' q
    | Error e => Error e
    end.
Proof.
  revert k; induction p as [|i p IH]; intros k; simpl; [reflexivity|].
  destruct (hdkeychain.Child k i); auto.
Qed.

Lemma childChainCalls_app (k : ExtendedKey) (p q : list Z) :
  childChainCalls k (p ++ q)
  = (childChainCalls k p
     ++ match childChain k p with
        | Ok k' => childChainCalls k' q
        | Error _ => []
        end)%list.
Proof.
  revert k; induction p as [|i p IH]; intros k; simpl; [reflexivity|].
  destruct (hdkeychain.Child k i); [now rewrite IH | reflexivity].
Qed.

Lemma childChainCalls_indices (k leaf : ExtendedKey) (indices : list Z) :
  childChain k indices = Ok leaf ->
  childIndices (childChainCalls k indices) = indices.
Proof.
  revert k; induction indices as [|i rest IH]; intros k; simpl;
    [reflexivity|].
  destruct (hdkeychain.Child k i) as [c|e]; [|discriminate].
  intros H. f_equal. now apply IH.
Qed.

(** The ways [deriveAccountKey] ends: with the account key after three
    derivations, or with the wrapped error of the first derivation that
    fails. *)
Lemma deriveAccountKey_cases (root : ExtendedKey) (purpose keyFamily : Z) :
  (exists k1 k2 acct,
      childChain root (accountIndices purpose keyFamily) = Ok acct
      /\ childChainCalls root (accountIndices purpose keyFamily)
         = [CallChild root (u32 (purpose + HardenedKeyStart));
            CallChild k1 (u32 (CoinTypeBitcoin + HardenedKeyStart));
            CallChild k2 (u32 (u32 keyFamily + HardenedKeyStart))]
      /\ forall w,
           deriveAccountKey root purpose keyFamily w
           = (Val (Ok acct),
              appendEvents w
                (childChainCalls root (accountIndices purpose keyFamily))))
  \/ (exists done parent index cause,
         (List.length done < 3)%nat
         /\ forallb isDerivation done = true
         /\ nth (List.length done) (accountIndices purpose keyFamily) 0 = index
         /\ hdkeychain.Child parent index = Error cause
         /\ childChain root (accountIndices purpose keyFamily) = Error cause
         /\ childChainCalls root (accountIndices purpose keyFamily)
            = (done ++ [CallChild parent index])%list
         /\ forall w,
              deriveAccountKey root purpose keyFamily w
              = (Val (Error (wrapAt (List.length done) cause)),
                 appendEvents w (done ++ [CallChild parent index]))).
Proof.
  unfold deriveAccountKey, accountIndices.
  cbn [childChain childChainCalls].
  destruct (hdkeychain.Child root (u32 (purpose + HardenedKeyStart)))
    as [k1|e1] eqn:E1.
  2:{ right. exists [], root, (u32 (purpose + HardenedKeyStart)), e1.
      repeat split; auto.
      intros w. step_Child. rewrite E1. reflexivity. }
  destruct (hdkeychain.Child k1 (u32 (CoinTypeBitcoin + HardenedKeyStart)))
    as [k2|e2] eqn:E2.
  2:{ right.
      exists [CallChild root (u32 (purpose + HardenedKeyStart))], k1,
        (u32 (CoinTypeBitcoin + HardenedKeyStart)), e2.
      repeat split; auto.
      intros w. step_Child. rewrite E1. step_Child. rewrite E2.
      reflexivity. }
  destruct (hdkeychain.Child k2 (u32 (u32 keyFamily + HardenedKeyStart)))
    as [k3|e3] eqn:E3.
  2:{ right.
      exists [CallChild root (u32 (purpose + HardenedKeyStart));
              CallChild k1 (u32 (CoinTypeBitcoin + HardenedKeyStart))],
        k2, (u32 (u32 keyFamily + HardenedKeyStart)), e3.
      repeat split; auto.
      intros w. step_Child. rewrite E1. step_Child. rewrite E2.
      step_Child. rewrite E3. reflexivity. }
  left. exists k1, k2, k3. repeat split.
  intros w. step_Child. rewrite E1. step_Child. rewrite E2.
  step_Child. rewrite E3. reflexivity.
Qed.

(** The ways [deriveFirstKey] ends. *)
Lemma deriveFirstKey_cases (root : ExtendedKey) (purpose keyFamily : Z) :
  (exists leaf,
      childChain root (leafIndices purpose keyFamily) = Ok leaf
      /\ forall w,
           deriveFirstKey root purpose keyFamily w
           = (Val (Ok (hdkeychain.pubKeyOf leaf)),
              appendEvents w
                (childChainCalls root (leafIndices purpose keyFamily))))
  \/ (exists done parent index cause,
         (List.length done < 5)%nat
         /\ forallb isDerivation done = true
         /\ nth (List.length done) (leafIndices purpose keyFamily) 0 = index
         /\ hdkeychain.Child parent index = Error cause
         /\ childChain root (leafIndices purpose keyFamily) = Error cause
         /\ childChainCalls root (leafIndices purpose keyFamily)
            = (done ++ [CallChild parent index])%list
         /\ forall w,
              deriveFirstKey root purpose keyFamily w
              = (Val (Error (wrapAt (List.length done) cause)),
                 appendEvents w (done ++ [CallChild parent index]))).
Proof.
  unfold leafIndices. rewrite childChain_app, childChainCalls_app.
  destruct (deriveAccountKey_cases root purpose keyFamily)
    as [(k1 & k2 & acct & Hc & Hcalls & Hrun)
       |(done & parent & index & cause & Hlen & Hd & Hnth & Hfail & Hc
         & Hcalls & Hrun)].
  - rewrite Hc, Hcalls. cbn [childChain childChainCalls].
    destruct (hdkeychain.Child acct 0) as [branch|e4] eqn:E4.
    2:{ right. eexists _, acct, 0, e4.
        split; [|split; [|split; [|split; [exact E4|split;
                 [reflexivity|split; [reflexivity|]]]]]].
        - simpl; lia.
        - reflexivity.
        - reflexivity.
        - intros w. unfold deriveFirstKey. unfold bind at 1.
          rewrite Hrun, Hcalls. cbv beta iota.
          step_Child. rewrite E4. reflexivity. }
    destruct (hdkeychain.Child branch 0) as [leaf|e5] eqn:E5.
    2:{ right.
        exists [CallChild root (u32 (purpose + HardenedKeyStart));
                CallChild k1 (u32 (CoinTypeBitcoin + HardenedKeyStart));
                CallChild k2 (u32 (u32 keyFamily + HardenedKeyStart));
                CallChild acct 0], branch, 0, e5.
        split; [simpl; lia|]. split; [reflexivity|].
        split; [reflexivity|]. split; [exact E5|].
        split; [reflexivity|]. split; [reflexivity|].
        intros w. unfold deriveFirstKey. unfold bind at 1.
        rewrite Hrun, Hcalls. cbv beta iota.
        step_Child. rewrite E4. step_Child. rewrite E5. reflexivity. }
    left. exists leaf. split; [reflexivity|].
    intros w. unfold deriveFirstKey. unfold bind at 1.
    rewrite Hrun, Hcalls. cbv beta iota.
    step_Child. rewrite E4. step_Child. rewrite E5. reflexivity.
  - right. exists done, parent, index, cause.
    rewrite Hc, Hcalls, app_nil_r.
    split; [lia|]. split; [exact Hd|].
    split.
    { rewrite app_nth1; [exact Hnth | simpl; lia]. }
    split; [exact Hfail|]. split; [reflexivity|]. split; [reflexivity|].
    intros w. unfold deriveFirstKey. unfold bind at 1.
    rewrite Hrun. reflexivity.
Qed.

End ChainRuns.

Section DerivationsInGeneral.
Context {prims : Primitives}.

Lemma rootCause_wrapAt (n : nat) (cause : error) :
  rootCause cause = cause -> rootCause (wrapAt n cause) = cause.
Proof.
  intros H. unfold wrapAt, stepPrefix.
  destruct n as [|[|[|n]]]; simpl; exact H.
Qed.

Lemma u32_plus_hardened (i : Z) :
  0 <= i < 2 ^ 32 ->
  u32 (i + HardenedKeyStart) = (i + 2 ^ 31) mod 2 ^ 32
  /\ isHardened ((i + 2 ^ 31) mod 2 ^ 32) = (i <? 2 ^ 31).
Proof.
  intros H. split; [reflexivity|].
  unfold isHardened, HardenedKeyStart.
  change (2 ^ 32) with 4294967296 in *. change (2 ^ 31) with 2147483648 in *.
  destruct (Z.ltb_spec i 2147483648) as [L|L].
  - rewrite Z.mod_small by lia. apply Z.leb_le. lia.
  - replace (i + 2147483648) with ((i - 2147483648) + 1 * 4294967296) by lia.
    rewrite Z.mod_add by lia. rewrite Z.mod_small by lia.
    apply Z.leb_gt. lia.
Qed.

(** X1.  The child indices of [deriveFirstKey] for every purpose and key
    family of type [uint32].  The five derivations are at the indices
    (purpose + 2^31) mod 2^32, 2^31, (keyFamily + 2^31) mod 2^32, 0 and 0,
    each on the node the previous one returned; the first and the third
    are hardened exactly when the purpose, respectively the key family,
    is below 2^31, the second always; the function returns the public key
    of the last node, and a key is returned only after all five. *)
Theorem deriveFirstKey_indices_modulo (root : ExtendedKey)
    (purpose keyFamily : Z) (w : World) :
  0 <= purpose < 2 ^ 32 -> 0 <= keyFamily < 2 ^ 32 ->
  leafIndices purpose keyFamily
  = [(purpose + 2 ^ 31) mod 2 ^ 32; 2 ^ 31;
     (keyFamily + 2 ^ 31) mod 2 ^ 32; 0; 0]
  /\ isHardened ((purpose + 2 ^ 31) mod 2 ^ 32) = (purpose <? 2 ^ 31)
  /\ isHardened (2 ^ 31) = true
  /\ isHardened ((keyFamily + 2 ^ 31) mod 2 ^ 32) = (keyFamily <? 2 ^ 31)
  /\ (exists r,
        deriveFirstKey root purpose keyFamily w
        = (Val r,
           appendEvents w
             (childChainCalls root (leafIndices purpose keyFamily)))
        /\ unwrapped r
           = match childChain root (leafIndices purpose keyFamily) with
             | Ok leaf => Ok (hdkeychain.pubKeyOf leaf)
             | Error e => Error e
             end)
  /\ (forall pub w',
        deriveFirstKey root purpose keyFamily w = (Val (Ok pub), w') ->
        childIndices (childChainCalls root (leafIndices purpose keyFamily))
        = leafIndices purpose keyFamily).
Proof.
  intros Hp Hf.
  split.
  { unfold leafIndices, accountIndices. cbn [app].
    assert (E : u32 keyFamily = keyFamily)
      by (unfold u32; apply Z.mod_small; lia).
    rewrite E. reflexivity. }
  split; [apply (u32_plus_hardened purpose Hp)|].
  split; [reflexivity|].
  split; [apply (u32_plus_hardened keyFamily Hf)|].
  destruct (deriveFirstKey_cases root purpose keyFamily)
    as [(leaf & Hc & Hrun)
       |(done & parent & index & cause & Hlen & Hd & Hnth & Hfail & Hc
         & Hcalls & Hrun)].
  - split.
    + eexists; split; [apply Hrun|]. rewrite Hc. reflexivity.
    + intros pub w' _. now apply childChainCalls_indices with leaf.
  - split.
    + eexists; split; [rewrite Hcalls; apply Hrun|]. rewrite Hc.
      cbn [unwrapped]. f_equal. apply rootCause_wrapAt.
      now apply Child_error_plain with parent index.
    + intros pub w' H. rewrite Hrun in H. discriminate H.
Qed.

(** X2.  Where a failure of [deriveFirstKey] comes from.  When it returns an
    error, the last event is the child derivation that failed, at the
    index of its position in the path, after fewer than five derivations;
    the error is the cause that derivation gave, behind
    "unable to derive purpose key; ", "unable to generate coin type key: "
    or "unable to derive account key: " for the three account steps, and
    as it is for the branch and index steps. *)
Theorem deriveFirstKey_failure_step (root : ExtendedKey)
    (purpose keyFamily : Z) (w w' : World) (e : error) :
  deriveFirstKey root purpose keyFamily w = (Val (Error e), w') ->
  exists done parent index cause,
    w' = appendEvents w (done ++ [CallChild parent index])
    /\ forallb isDerivation done = true
    /\ (List.length done < 5)%nat
    /\ index = nth (List.length done) (leafIndices purpose keyFamily) 0
    /\ hdkeychain.Child parent index = Error cause
    /\ e = nth (List.length done)
             [Errorf "unable to derive purpose key; " cause;
              Errorf "unable to generate coin type key: " cause;
              Errorf "unable to derive account key: " cause;
              cause; cause] cause.
Proof.
  intros H.
  destruct (deriveFirstKey_cases root purpose keyFamily)
    as [(leaf & Hc & Hrun)
       |(done & parent & index & cause & Hlen & Hd & Hnth & Hfail & Hc
         & Hcalls & Hrun)].
  - rewrite Hrun in H. discriminate H.
  - rewrite Hrun in H. injection H as <- <-.
    exists done, parent, index, cause.
    split; [reflexivity|]. split; [assumption|]. split; [assumption|].
    split; [now symmetry|]. split; [assumption|].
    unfold wrapAt, stepPrefix.
    destruct (List.length done) as [|[|[|[|[|n]]]]]; try reflexivity; lia.
Qed.

(** X3.  No key from a root with public material only.  On such a root
    [deriveFirstKey] returns an error for every purpose and key family,
    after one or two child derivations: the coin-type step is hardened
    whatever the purpose is, and a child of a public node is public. *)
Theorem deriveFirstKey_needs_private_root (root : ExtendedKey) (P : PublicKey)
    (purpose keyFamily : Z) (w : World) :
  keyMaterial root = Public P ->
  exists e es,
    deriveFirstKey root purpose keyFamily w = (Val (Error e), appendEvents w es)
    /\ (1 <= List.length es <= 2)%nat
    /\ childIndices es
       = firstn (List.length es) (leafIndices purpose keyFamily).
Proof.
  intros HP.
  destruct (deriveFirstKey_cases root purpose keyFamily)
    as [(leaf & Hc & Hrun)
       |(done & parent & index & cause & Hlen & Hd & Hnth & Hfail & Hc
         & Hcalls & Hrun)];
    unfold leafIndices, accountIndices in Hc; cbn [app childChain] in Hc.
  - exfalso.
    destruct (hdkeychain.Child root (u32 (purpose + HardenedKeyStart)))
      as [k1|e1] eqn:E1; [|discriminate Hc].
    destruct (Child_of_public_is_public _ _ _ _ HP E1) as [Q HQ].
    rewrite (Child_public_hardened k1 Q _ HQ coinType_index_hardened) in Hc.
    discriminate Hc.
  - exists (wrapAt (List.length done) cause),
      (done ++ [CallChild parent index])%list.
    split; [apply Hrun|].
    rewrite <- Hcalls. unfold leafIndices, accountIndices.
    cbn [app childChainCalls].
    destruct (hdkeychain.Child root (u32 (purpose + HardenedKeyStart)))
      as [k1|e1] eqn:E1.
    + destruct (Child_of_public_is_public _ _ _ _ HP E1) as [Q HQ].
      rewrite (Child_public_hardened k1 Q _ HQ coinType_index_hardened).
      split; [simpl; lia | reflexivity].
    + split; [simpl; lia | reflexivity].
Qed.

End DerivationsInGeneral.

(* ================================================================== *)
(** * More on the runs of [main] *)

Lemma appendEvents_inj (w : World) (es es' : list event) :
  appendEvents w es = appendEvents w es' -> es = es'.
Proof.
  unfold appendEvents. intros H. injection H as H.
  now apply app_inv_head in H.
Qed.

Lemma decryptionsOf_app (t t' : list event) :
  decryptionsOf (t ++ t') = decryptionsOf t ++ decryptionsOf t'.
Proof. unfold decryptionsOf. apply flat_map_app. Qed.

Lemma derivations_no_decryption (d : list event) :
  forallb isDerivation d = true -> decryptionsOf d = [].
Proof.
  induction d as [|e d IH]; simpl; [auto|].
  destruct e; simpl; try discriminate. exact IH.
Qed.

Lemma derivations_are_calls (d : list event) :
  forallb isDerivation d = true -> callsOf d = d.
Proof.
  induction d as [|e d IH]; simpl; [auto|].
  destruct e; simpl; try discriminate. intros H. now rewrite IH.
Qed.

Lemma callsOf_app (t t' : list event) :
  callsOf (t ++ t') = callsOf t ++ callsOf t'.
Proof. unfold callsOf. apply filter_app. Qed.

Lemma countSpaces_append (a b : string) :
  countSpaces (a ++ b) = (countSpaces a + countSpaces b)%nat.
Proof.
  induction a as [|c a IH]; simpl; [reflexivity|]. rewrite IH. lia.
Qed.

Lemma split_from_pieces (cur s : string) :
  countSpaces cur = 0%nat ->
  Forall (fun p => countSpaces p = 0%nat) (split_from cur s).
Proof.
  revert cur; induction s as [|c s IH]; intros cur Hcur; simpl.
  - constructor; [assumption | constructor].
  - destruct (Ascii.eqb c " "%char) eqn:E.
    + constructor; [assumption|]. now apply IH.
    + apply IH. rewrite countSpaces_append, Hcur. simpl. now rewrite E.
Qed.

Section MoreOnRuns.
Context {prims : Primitives}.

Local Open Scope string_scope.

(** The events a run of [main] adds are those of one of its rules. *)
Lemma main_run (w : World) (o : outcome unit) (es : list event) :
  main w = (o, appendEvents w es) ->
  Run (BIP0043Purpose, KeyFamilyNodeKey) (KeyScopeBIP0084_Purpose, 0)
    (KeyScopeBIP0049Plus_Purpose, 0) w o es.
Proof.
  intros H. destruct (main_sound w) as (o' & es' & H' & R).
  rewrite H in H'. injection H' as -> E.
  apply app_inv_head in E. now subst es'.
Qed.

Lemma passwordOf_bytes (w : World) :
  passwordOf w = bytes_of_string (aezeedPass w).
Proof.
  unfold passwordOf. destruct (String.eqb_spec (aezeedPass w) "") as [->|_];
    reflexivity.
Qed.

Ltac quiet :=
  repeat match goal with
         | H : derives _ _ _ _ |- _ =>
             let S1 := fresh in let S2 := fresh in let S3 := fresh in
             assert (S1 := derives_stdout _ _ _ _ H);
             assert (S2 := derives_stderr _ _ _ _ H);
             assert (S3 := derivations_no_decryption _ (proj2 H));
             rewrite ?S1, ?S2, ?S3; clear H
         end.

(** X4.  A cipher seed that cannot be recovered.  When the recovery refuses
    the words or the pass phrase, [main] reports
    "unable to decrypt cipher seed: " with the cause and exits with status
    1; the recovery call is its only call, and nothing is on standard
    output. *)
Theorem decrypt_failure_stops (w : World) (e : error) :
  wellCounted w ->
  decipher (Split (mnemonic w)) (bytes_of_string (aezeedPass w)) = Error e ->
  main w
  = (Exited 1,
     appendEvents w
       [CallToCipherSeed (Split (mnemonic w))
          (bytes_of_string (aezeedPass w));
        Stderr ("unable to decrypt cipher seed: " ++ errorString e)]).
Proof.
  intros Hw He.
  destruct (main_sound w) as (o & es & Hmain & R). rewrite Hmain.
  rewrite <- (phraseOf_wellCounted w Hw), <- passwordOf_bytes in *.
  destruct Hw as [Hm Hn].
  inversion R; subst; try contradiction; congruence.
Qed.

(** X5.  What reaches the cipher-seed recovery.  In every run, whatever is
    handed to [ToCipherSeed] is the flag cut at its spaces: 24 words, none
    with a space in it, which joined by single spaces give the flag back,
    with the bytes of the pass flag as pass phrase; the call is the first
    event of the run and there is no second one. *)
Theorem recovery_input (w : World) (o : outcome unit) (es : list event)
    (ws : list string) (pw : bytes) :
  main w = (o, appendEvents w es) ->
  In (ws, pw) (decryptionsOf es) ->
  ws = Split (mnemonic w)
  /\ List.length ws = 24%nat
  /\ Forall (fun p => countSpaces p = 0%nat) ws
  /\ String.concat " " ws = mnemonic w
  /\ pw = bytes_of_string (aezeedPass w)
  /\ decryptionsOf es = [(ws, pw)]
  /\ exists rest, es = CallToCipherSeed ws pw :: rest.
Proof.
  intros Hmain Hin. apply main_run in Hmain.
  assert (K : forall rest,
             wellCounted w ->
             decryptionsOf (CallToCipherSeed (phraseOf w) (passwordOf w)
                              :: rest)
             = [(phraseOf w, passwordOf w)] ->
             es = CallToCipherSeed (phraseOf w) (passwordOf w) :: rest ->
             ws = Split (mnemonic w)
             /\ List.length ws = 24%nat
             /\ Forall (fun p => countSpaces p = 0%nat) ws
             /\ String.concat " " ws = mnemonic w
             /\ pw = bytes_of_string (aezeedPass w)
             /\ decryptionsOf es = [(ws, pw)]
             /\ exists rest, es = CallToCipherSeed ws pw :: rest).
  { intros rest Hw Hd Hes. rewrite Hes, Hd in Hin.
    destruct Hin as [Hin|[]]. injection Hin as <- <-.
    rewrite (phraseOf_wellCounted w Hw), passwordOf_bytes in *.
    split; [reflexivity|]. split; [apply Hw|].
    split; [apply split_from_pieces; reflexivity|].
    split; [apply Split_spec|]. split; [reflexivity|].
    split; [now rewrite Hes|]. now exists rest. }
  inversion Hmain; subst; try (simpl in Hin; contradiction);
    unfold prologue in *; cbn [app] in *;
    (eapply K; [assumption| |reflexivity]);
    cbn [decryptionsOf flat_map app];
    fold (decryptionsOf);
    rewrite ?decryptionsOf_app; quiet; reflexivity.
Qed.

End MoreOnRuns.

Section ShapesOfRuns.
Context {prims : Primitives}.

Local Open Scope string_scope.


(** X6.  The word-count gate counts spaces.  A run reaches the cipher-seed
    recovery exactly when the mnemonic flag is not empty and has exactly
    23 space characters, whatever lies between them; a non-empty flag
    without any space -- words separated by new lines, say -- is counted
    as one word and refused. *)
Theorem space_count_gate (w : World) (o : outcome unit) (es : list event) :
  main w = (o, appendEvents w es) ->
  (decryptionsOf es <> []
   <-> mnemonic w <> "" /\ countSpaces (mnemonic w) = 23%nat)
  /\ (mnemonic w <> "" -> countSpaces (mnemonic w) = 0%nat ->
      o = Exited 1 /\ es = [Stderr "expected 24 words, instead got 1"]).
Proof.
  intros Hmain. apply main_run in Hmain.
  pose proof (proj2 (Split_spec (mnemonic w))) as Hlen.
  unfold NummnemonicWords in *.
  split; [split|].
  - intros Hd.
    inversion Hmain; subst; try (simpl in Hd; congruence);
      match goal with H : wellCounted w |- _ => destruct H as [? Hn] end;
      (split; [assumption | unfold NummnemonicWords in Hn; lia]).
  - intros [Hm Hs].
    assert (Hn : List.length (Split (mnemonic w)) = 24%nat)
      by (rewrite Hlen, Hs; reflexivity).
    inversion Hmain; subst; try contradiction; unfold prologue;
      try discriminate;
      match goal with H : wellCounted w |- _ => destruct H as [? Hn'] end;
      unfold NummnemonicWords in *; congruence.
  - intros Hm Hs.
    assert (Hn : List.length (Split (mnemonic w)) = 1%nat)
      by (rewrite Hlen, Hs; reflexivity).
    inversion Hmain; subst; try contradiction;
      try (match goal with H : wellCounted w |- _ => destruct H as [? Hn'] end;
           unfold NummnemonicWords in Hn'; rewrite Hn in Hn';
           discriminate Hn').
    rewrite Hn. split; reflexivity.
Qed.



End ShapesOfRuns.

Section CompleteRuns.
Context {prims : Primitives}.

Local Open Scope string_scope.

Lemma leaf_calls_indices (root : ExtendedKey) (purpose keyFamily : Z)
    (pub : PublicKey) :
  leafPublicKey root purpose keyFamily = Ok pub ->
  childIndices (walkCalls root (leafPath purpose keyFamily))
  = map trueIndex (leafPath purpose keyFamily).
Proof.
  unfold leafPublicKey.
  destruct (walk root (leafPath purpose keyFamily)) as [leaf|e] eqn:E;
    [|discriminate].
  intros _. now apply walkCalls_indices with leaf.
Qed.

(** X8.  The calls of a complete run.  A run of [main] that reaches its end
    with a mnemonic given makes its calls in this order: the cipher-seed
    recovery, the master key for the main network from the recovered
    entropy, then five child derivations from the root for each of the
    node, native segwit and nested segwit keys -- at the indices
    1017', 0', 6', 0, 0, then 84', 0', 0', 0, 0, then 49', 0', 0', 0, 0. *)
Theorem complete_run_calls (w w' : World) :
  mnemonic w <> "" ->
  main w = (Val tt, w') ->
  exists seed root es,
    w' = appendEvents w es
    /\ decipher (Split (mnemonic w)) (bytes_of_string (aezeedPass w))
       = Ok seed
    /\ hdkeychain.NewMaster (Entropy seed) MainNetParams = Ok root
    /\ callsOf es
       = ([CallToCipherSeed (Split (mnemonic w))
             (bytes_of_string (aezeedPass w));
           CallNewMaster (Entropy seed) MainNetParams]
          ++ walkCalls root (leafPath BIP0043Purpose KeyFamilyNodeKey)
          ++ walkCalls root (leafPath KeyScopeBIP0084_Purpose 0)
          ++ walkCalls root (leafPath KeyScopeBIP0049Plus_Purpose 0))%list
    /\ childIndices es
       = [1017 + 2 ^ 31; 2 ^ 31; 6 + 2 ^ 31; 0; 0;
          84 + 2 ^ 31; 2 ^ 31; 2 ^ 31; 0; 0;
          49 + 2 ^ 31; 2 ^ 31; 2 ^ 31; 0; 0]%Z.
Proof.
  intros Hm Hmain.
  destruct (main_sound w) as (o & es & Hmain' & R).
  rewrite Hmain in Hmain'. injection Hmain' as <- ->.
  destruct (Run_report_inv _ _ _ _ _ Hm R)
    as (seed & root & p1 & p2 & p3 & a2 & a3 & d1 & d2 & d3
        & Hs & Hr & D1 & D2 & A2 & D3 & A3 & ->).
  assert (Hw : wellCounted w)
    by (inversion R; subst; try contradiction; assumption).
  rewrite (phraseOf_wellCounted w Hw), passwordOf_bytes in Hs.
  apply derives_leaf in D1; [|vm_compute; split; congruence ..].
  apply derives_leaf in D2; [|vm_compute; split; congruence ..].
  apply derives_leaf in D3; [|vm_compute; split; congruence ..].
  cbn [fst snd] in D1, D2, D3.
  destruct D1 as [L1 ->], D2 as [L2 ->], D3 as [L3 ->].
  exists seed, root. eexists. split; [reflexivity|].
  split; [exact Hs|]. split; [exact Hr|].
  split.
  - rewrite !callsOf_app. unfold prologue.
    rewrite (phraseOf_wellCounted w Hw), passwordOf_bytes.
    assert (C : forall p f, callsOf (walkCalls root (leafPath p f))
                            = walkCalls root (leafPath p f)).
    { intros p f. apply derivations_are_calls.
      generalize (leafPath p f) as path. generalize root as k.
      intros k path; revert k.
      induction path as [|step path IH]; intros k; simpl; [reflexivity|].
      destruct (hdkeychain.deriveChild k (fst step) (snd step));
        [apply IH | reflexivity]. }
    rewrite !C. cbn [callsOf filter isCall app]. now rewrite app_nil_r.
  - rewrite !childIndices_app.
    rewrite (leaf_calls_indices _ _ _ _ L1), (leaf_calls_indices _ _ _ _ L2),
      (leaf_calls_indices _ _ _ _ L3).
    reflexivity.
Qed.

(** X9.  The two address texts of the report.  In a complete run the third
    line is "First p2wkh address:", two spaces and the bech32 text, under
    "bc" and witness version 0, of the hash160 of the compressed key at
    84'/0'/0'/0/0; the fourth is "First n2pwkh address", one space and the
    base58check text, under version 5, of the hash160 of the bytes 0x00,
    0x14 and the hash160 of the compressed key at 49'/0'/0'/0/0. *)
Theorem report_address_texts (w w' : World) :
  mnemonic w <> "" ->
  main w = (Val tt, w') ->
  exists seed root k2 k3 es,
    w' = appendEvents w es
    /\ decipher (phraseOf w) (passwordOf w) = Ok seed
    /\ hdkeychain.NewMaster (Entropy seed) MainNetParams = Ok root
    /\ leafPublicKey root 84 0 = Ok k2
    /\ leafPublicKey root 49 0 = Ok k3
    /\ nth 2 (stdoutOf es) ""
       = "First p2wkh address:  "
         ++ segwitEncode "bc" 0 (Hash160 (SerializeCompressed k2))
    /\ nth 3 (stdoutOf es) ""
       = "First n2pwkh address "
         ++ base58CheckEncode
              (Hash160 (x00 :: x14 :: Hash160 (SerializeCompressed k3))) 5.
Proof.
  intros Hm Hmain.
  destruct (main_sound w) as (o & es & Hmain' & R).
  rewrite Hmain in Hmain'. injection Hmain' as <- ->.
  destruct (Run_report_inv _ _ _ _ _ Hm R)
    as (seed & root & p1 & p2 & p3 & a2 & a3 & d1 & d2 & d3
        & Hs & Hr & D1 & D2 & A2 & D3 & A3 & ->).
  rewrite keyToP2wkhAddr_ok in A2. injection A2 as <-.
  rewrite keyToNp2wkhAddr_ok in A3. injection A3 as <-.
  exists seed, root, p2, p3. eexists. split; [reflexivity|].
  split; [exact Hs|]. split; [exact Hr|].
  split; [apply (derives_leaf root (KeyScopeBIP0084_Purpose, 0) p2 d2);
          [vm_compute; split; congruence ..| exact D2]|].
  split; [apply (derives_leaf root (KeyScopeBIP0049Plus_Purpose, 0) p3 d3);
          [vm_compute; split; congruence ..| exact D3]|].
  rewrite !stdoutOf_app.
  rewrite (derives_stdout _ _ _ _ D1), (derives_stdout _ _ _ _ D2),
    (derives_stdout _ _ _ _ D3).
  split; reflexivity.
Qed.

(** X10.  The failure messages of [main].  A run that ends with status 1
    writes one message to standard error, and the message names the call
    that failed and carries the error that call returned: the word count
    when the mnemonic does not split into 24 words; "unable to decrypt
    cipher seed: " followed by the error of the recovery; or, the seed
    recovered, the text of the first failing step followed by the error
    that step returned, the step being master-key construction or one of
    the three key derivations.  The two messages for a failing address
    encoding, "unable to create p2wkh addr: " and "unable to create
    np2wkh addr: ", never appear: a hash160 has the 20 bytes the address
    constructors ask for. *)
Theorem failure_messages (w : World) (o : outcome unit) (es : list event) :
  main w = (o, appendEvents w es) ->
  exitStatus o = 1 ->
  exists message,
    stderrOf es = [message]
    /\ ((mnemonic w <> ""
         /\ List.length (Split (mnemonic w)) <> 24%nat
         /\ message
            = "expected 24 words, instead got "
              ++ fmt_uint (Z.of_nat (List.length (Split (mnemonic w)))))
        \/ (exists e,
              List.length (Split (mnemonic w)) = 24%nat
              /\ decipher (Split (mnemonic w))
                   (bytes_of_string (aezeedPass w)) = Error e
              /\ message = "unable to decrypt cipher seed: " ++ errorString e)
        \/ (exists seed prefix e d,
              List.length (Split (mnemonic w)) = 24%nat
              /\ decipher (Split (mnemonic w))
                   (bytes_of_string (aezeedPass w)) = Ok seed
              /\ FailingStep seed prefix e d
              /\ In prefix ["unable to make HD priv root: ";
                            "unable to derive node key: ";
                            "unable to derive first segwit addr: ";
                            "unable to derive first nested segwit addr: "]
              /\ message = prefix ++ errorString e))
    /\ String.prefix "unable to create " message = false.
Proof.
  intros Hmain Hst. apply main_run in Hmain.
  inversion Hmain; subst; try discriminate Hst;
    try (rewrite keyToP2wkhAddr_ok in *; discriminate);
    try (rewrite keyToNp2wkhAddr_ok in *; discriminate);
    try match goal with
        | H : wellCounted w |- _ =>
            pose proof (proj2 H) as Hn;
            rewrite (phraseOf_wellCounted w H), passwordOf_bytes in *;
            clear H
        end;
    rewrite ?stderrOf_app;
    repeat match goal with
           | H : derives _ _ _ _ |- _ =>
               rewrite ?(derives_stderr _ _ _ _ H); revert H
           end;
    intros;
    (eexists; split; [reflexivity|]);
    (split; [|reflexivity]).
  - left. split; [assumption|]. split; [assumption|]. reflexivity.
  - right; left. exists e. split; [exact Hn|]. split; [assumption|].
    reflexivity.
  - right; right. exists seed, "unable to make HD priv root: ", e, [].
    split; [exact Hn|]. split; [assumption|].
    split; [now apply MasterKeyFails|].
    split; [simpl; tauto | reflexivity].
  - right; right. exists seed, "unable to derive node key: ", e, d1.
    split; [exact Hn|]. split; [assumption|].
    split; [now apply NodeKeyFails with (root := root)|].
    split; [simpl; tauto | reflexivity].
  - right; right.
    exists seed, "unable to derive first segwit addr: ", e, (d1 ++ d2)%list.
    split; [exact Hn|]. split; [assumption|].
    split; [now apply SegwitKeyFails with (root := root) (nodePub := nodePub)|].
    split; [simpl; tauto | reflexivity].
  - right; right.
    exists seed, "unable to derive first nested segwit addr: ", e,
      (d1 ++ d2 ++ d3)%list.
    split; [exact Hn|]. split; [assumption|].
    split; [now apply NestedKeyFails
              with (root := root) (nodePub := nodePub) (k2 := k2) (a2 := a2)|].
    split; [simpl; tauto | reflexivity].
Qed.

End CompleteRuns.

(* ================================================================== *)
(** * Hexadecimal text and the bytes it stands for *)

Lemma hexvalue_hexdigit (d : Z) : 0 <= d < 16 -> hexvalue (hexdigit d) = d.
Proof.
  intros H.
  assert (C : d = 0 \/ d = 1 \/ d = 2 \/ d = 3 \/ d = 4 \/ d = 5 \/ d = 6
              \/ d = 7 \/ d = 8 \/ d = 9 \/ d = 10 \/ d = 11 \/ d = 12
              \/ d = 13 \/ d = 14 \/ d = 15) by lia.
  repeat destruct C as [->|C]; try reflexivity. subst d. reflexivity.
Qed.

Lemma Z_of_byte_range (b : byte) : 0 <= Z_of_byte b < 256.
Proof.
  unfold Z_of_byte. pose proof (Byte.to_N_bounded b). lia.
Qed.

Lemma Z_of_byte_inj (a b : byte) : Z_of_byte a = Z_of_byte b -> a = b.
Proof.
  unfold Z_of_byte. intros H. apply N2Z.inj in H.
  pose proof (Byte.of_to_N a) as Ha. rewrite H, Byte.of_to_N in Ha.
  now injection Ha.
Qed.

Lemma append_cancel_l (a b c : string) :
  (a ++ b)%string = (a ++ c)%string -> b = c.
Proof.
  induction a as [|x a IH]; simpl; intros K; [exact K|].
  injection K as K. now apply IH.
Qed.

(** X12.  The hexadecimal text determines the bytes.  [hex.EncodeToString]
    gives different texts for different byte strings, so the node key line
    of the report stands for one compressed key only. *)
Theorem hex_text_determines_bytes :
  (forall a b : bytes, EncodeToString a = EncodeToString b -> a = b)
  /\ (forall p q : PublicKey,
        (("Node pub key:  " ++ EncodeToString (SerializeCompressed p))
         = ("Node pub key:  " ++ EncodeToString (SerializeCompressed q)))%string
        -> SerializeCompressed p = SerializeCompressed q).
Proof.
  assert (I : forall a b : bytes,
             EncodeToString a = EncodeToString b -> a = b).
  { induction a as [|x a IH]; intros [|y b] H; simpl in H;
      try discriminate H; [reflexivity|].
    injection H as H1 H2 H3.
    apply (f_equal hexvalue) in H1, H2.
    pose proof (Z_of_byte_range x) as Rx.
    pose proof (Z_of_byte_range y) as Ry.
    assert (Dx : 0 <= Z_of_byte x / 16 < 16)
      by (split; [apply Z.div_pos; lia | apply Z.div_lt_upper_bound; lia]).
    assert (Dy : 0 <= Z_of_byte y / 16 < 16)
      by (split; [apply Z.div_pos; lia | apply Z.div_lt_upper_bound; lia]).
    assert (Mx : 0 <= Z_of_byte x mod 16 < 16)
      by (apply Z.mod_pos_bound; lia).
    assert (My : 0 <= Z_of_byte y mod 16 < 16)
      by (apply Z.mod_pos_bound; lia).
    rewrite !hexvalue_hexdigit in H1, H2 by assumption.
    f_equal; [|now apply IH].
    apply Z_of_byte_inj.
    rewrite (Z.div_mod (Z_of_byte x) 16), (Z.div_mod (Z_of_byte y) 16) by lia.
    now rewrite H1, H2. }
  split; [exact I|].
  intros p q H. apply I.
  now apply append_cancel_l in H.
Qed.

(* ================================================================== *)
(** * Concrete runs *)

Module Scenarios.
Import SampleInstances.

Local Open Scope string_scope.

Example Split_keeps_empty_words :
  Split "abandon  ability " = ["abandon"; ""; "ability"; ""].
Proof. reflexivity. Qed.

Example EncodeToString_sample : EncodeToString [x00; x9f; xff] = "009fff".
Proof. reflexivity. Qed.

Example purpose_sum_wraps : u32 (2 ^ 31 + HardenedKeyStart) = 0%Z.
Proof. reflexivity. Qed.

Example node_path_in_range :
  u32 (BIP0043Purpose + HardenedKeyStart) = (1017 + 2 ^ 31)%Z
  /\ u32 (u32 KeyFamilyNodeKey + HardenedKeyStart) = (6 + 2 ^ 31)%Z.
Proof. split; reflexivity. Qed.

Example sample_run_reports_four_lines :
  List.length (stdoutOf (trace (snd (@main sound start)))) = 4%nat.
Proof. vm_compute. reflexivity. Qed.

(** Against C1 as stated: the master key is built, the first child
    derivation fails, the run is reported as failed and ends with status
    1 -- and the wallet-birthday line is on standard output. *)
Lemma partial_report_before_failure :
  exitStatus (fst (@main failingChildren start)) = 1
  /\ stderrOf (trace (snd (@main failingChildren start)))
     = ["unable to derive node key: unable to derive purpose key; InvalidTweak"]
  /\ stdoutOf (trace (snd (@main failingChildren start)))
     = ["Wallet Birthday: day 3723, Internal Version: 0"]
  /\ stdoutOf (trace (snd (@main failingChildren start))) <> [].
Proof.
  split; [vm_compute; reflexivity|].
  split; [vm_compute; reflexivity|].
  split; [vm_compute; reflexivity|].
  vm_compute; discriminate.
Qed.

(** The same run, as an instance of the theorem on failures after
    recovery: the failing step is the derivation of the node key, whose
    first child derivation is refused. *)
Lemma failure_after_recovery_witness :
  @wellCounted start
  /\ @decipher failingChildren (phraseOf start) (passwordOf start) = Ok recovered
  /\ @FailingStep failingChildren recovered "unable to derive node key: "
       (Errorf "unable to derive purpose key; " InvalidTweak)
       [CallChild recoveredMaster (1017 + 2 ^ 31)]
  /\ @main failingChildren start
     = (Exited 1,
        appendEvents start
          [CallToCipherSeed (phraseOf start) (passwordOf start);
           Stdout "Wallet Birthday: day 3723, Internal Version: 0";
           CallNewMaster (Entropy recovered) MainNetParams;
           CallChild recoveredMaster (1017 + 2 ^ 31);
           Stderr "unable to derive node key: unable to derive purpose key; InvalidTweak"]).
Proof.
  assert (H1 : @wellCounted start)
    by (split; [discriminate | vm_compute; reflexivity]).
  assert (H2 : @decipher failingChildren (phraseOf start) (passwordOf start)
               = Ok recovered) by (vm_compute; reflexivity).
  assert (H3 : @FailingStep failingChildren recovered
                 "unable to derive node key: "
                 (Errorf "unable to derive purpose key; " InvalidTweak)
                 [CallChild recoveredMaster (1017 + 2 ^ 31)]).
  { apply (@NodeKeyFails failingChildren recovered recoveredMaster).
    - vm_compute; reflexivity.
    - split; [intros w0; vm_compute; reflexivity | reflexivity]. }
  split; [exact H1|]. split; [exact H2|]. split; [exact H3|].
  exact (proj1 (@failure_after_recovery failingChildren start recovered
                  _ _ _ H1 H2 H3)).
Defined.

(** Against C2 as stated: for the purpose 2^31 the sum with
    [HardenedKeyStart] wraps around to 0, and the first child derivation
    of [deriveAccountKey] is the non-hardened child 0. *)
Lemma purpose_wraps_to_normal_child :
  childIndices
    (trace (snd (@deriveAccountKey sound privateRoot (2 ^ 31) 0 emptyWorld)))
  = [0; 2 ^ 31; 2 ^ 31]
  /\ forallb isHardened
       (childIndices
          (trace (snd (@deriveAccountKey sound privateRoot (2 ^ 31) 0
                         emptyWorld))))
     = false
  /\ exists acct,
       fst (@deriveAccountKey sound privateRoot (2 ^ 31) 0 emptyWorld)
       = Val (Ok acct).
Proof.
  split; [vm_compute; reflexivity|].
  split; [vm_compute; reflexivity|].
  eexists. vm_compute. reflexivity.
Qed.

(** The native-segwit path of [main] on the sample root. *)
Lemma deriveFirstKey_walks_leaf_path_witness :
  0 <= 84 < 2 ^ 31 /\ 0 <= 0 < 2 ^ 31
  /\ (exists r,
        @deriveFirstKey sound privateRoot 84 0 emptyWorld
        = (Val r,
           appendEvents emptyWorld
             (@walkCalls sound privateRoot (leafPath 84 0)))
        /\ unwrapped r = @leafPublicKey sound privateRoot 84 0).
Proof.
  assert (H1 : 0 <= 84 < 2 ^ 31) by lia.
  assert (H2 : 0 <= 0 < 2 ^ 31) by lia.
  split; [exact H1|]. split; [exact H2|].
  exact (proj1 (proj2 (@deriveFirstKey_walks_leaf_path sound privateRoot 84 0
                         emptyWorld H1 H2))).
Defined.

(** Against C4 as stated: on a root with public material only and the
    purpose 2^31, the first step of [deriveAccountKey] is a non-hardened
    derivation and succeeds; the failure comes at the coin-type step. *)
Lemma public_root_passes_first_step :
  isOk (@hdkeychain.Child sound publicRoot (u32 (2 ^ 31 + HardenedKeyStart)))
  = true
  /\ fst (@deriveAccountKey sound publicRoot (2 ^ 31) 0 emptyWorld)
     = Val (Error (Errorf "unable to generate coin type key: "
                     HardenedFromPublicOnly))
  /\ childIndices
       (trace (snd (@deriveAccountKey sound publicRoot (2 ^ 31) 0
                      emptyWorld)))
     = [0; 2 ^ 31].
Proof. repeat split; vm_compute; reflexivity. Qed.

(** The nested-segwit purpose on a root with public material only. *)
Lemma hardened_from_public_only_fails_witness :
  keyMaterial publicRoot = Public (mkPublicKey 5 1)
  /\ @hdkeychain.Child sound publicRoot (49 + 2 ^ 31)
     = Error HardenedFromPublicOnly
  /\ @deriveAccountKey sound publicRoot 49 0 emptyWorld
     = (Val (Error (Errorf "unable to derive purpose key; "
                      HardenedFromPublicOnly)),
        appendEvents emptyWorld [CallChild publicRoot (49 + 2 ^ 31)]).
Proof.
  assert (H : keyMaterial publicRoot = Public (mkPublicKey 5 1))
    by reflexivity.
  pose proof (@hardened_from_public_only_fails sound publicRoot _ 49 0
                emptyWorld H) as (_ & HC & HA & _).
  split; [exact H|]. split.
  - apply HC. unfold HardenedKeyStart. lia.
  - apply HA. lia.
Defined.

(** A buffer of 15 bytes, and a run whose recovered entropy is that
    buffer. *)
Lemma truncated_entropy_refused_witness :
  List.length (repeat x00 15) <> EntropySize
  /\ @hdkeychain.NewMaster truncated (repeat x00 15) MainNetParams
     = Error InvalidSeedLength
  /\ exists es,
       @main truncated start = (Exited 1, appendEvents start es)
       /\ childIndices es = []
       /\ stderrOf es = ["unable to make HD priv root: InvalidSeedLength"]
       /\ stdoutOf es = [@birthdayLine truncated truncatedSeed].
Proof.
  assert (H : List.length (repeat x00 15) <> EntropySize)
    by (vm_compute; discriminate).
  pose proof (@truncated_entropy_refused truncated (repeat x00 15)
                MainNetParams start H) as (_ & HM & _ & Hmain).
  split; [exact H|]. split; [exact HM|].
  apply (Hmain truncatedSeed).
  - split; [discriminate | vm_compute; reflexivity].
  - vm_compute; reflexivity.
  - reflexivity.
Defined.

(** Against C8 as stated: in a complete run the second line is
    "Node pub key:", two spaces and the hexadecimal key, so it is not
    "Node pub key: " followed by lowercase hexadecimal digits; likewise
    the third line has two spaces after its colon. *)
Lemma report_labels_have_two_spaces :
  fst (@main sound start) = Val tt
  /\ nth 1 (stdoutOf (trace (snd (@main sound start)))) ""
     = "Node pub key:  020000000000000000000000000000000000000000000000000000000000001394"
  /\ nth 2 (stdoutOf (trace (snd (@main sound start)))) ""
     = "First p2wkh address:  bc1000000000000000000000000000000000000ba00db"
  /\ ~ (exists h,
          isLowerHex h = true
          /\ nth 1 (stdoutOf (trace (snd (@main sound start)))) ""
             = "Node pub key: " ++ h).
Proof.
  split; [vm_compute; reflexivity|].
  split; [vm_compute; reflexivity|].
  split; [vm_compute; reflexivity|].
  intros (h & Hh & E).
  assert (L : nth 1 (stdoutOf (trace (snd (@main sound start)))) ""
              = "Node pub key: "
                ++ " 020000000000000000000000000000000000000000000000000000000000001394")
    by (vm_compute; reflexivity).
  rewrite L in E.
  assert (I : forall a b c, (a ++ b = a ++ c -> b = c)%string).
  { intros a b c. induction a as [|x a IH]; simpl; intros K; [exact K|].
    injection K as K. now apply IH. }
  apply I in E. subst h. vm_compute in Hh. discriminate Hh.
Qed.

(** The complete sample run. *)
Lemma report_lines_witness :
  mnemonic start <> ""
  /\ @main sound start = (Val tt, snd (@main sound start))
  /\ exists seed root nodePub k2 k3 a2 a3 es,
       snd (@main sound start) = appendEvents start es
       /\ @decipher sound (phraseOf start) (passwordOf start) = Ok seed
       /\ @hdkeychain.NewMaster sound (Entropy seed) MainNetParams = Ok root
       /\ @leafPublicKey sound root BIP0043Purpose KeyFamilyNodeKey
          = Ok nodePub
       /\ @leafPublicKey sound root KeyScopeBIP0084_Purpose 0 = Ok k2
       /\ @keyToP2wkhAddr sound k2 = Ok a2
       /\ @leafPublicKey sound root KeyScopeBIP0049Plus_Purpose 0 = Ok k3
       /\ @keyToNp2wkhAddr sound k3 = Ok a3
       /\ stdoutOf es
          = ["Wallet Birthday: " ++ @fmtBirthdayTime sound seed
             ++ ", Internal Version: " ++ fmt_uint (InternalVersion seed);
             "Node pub key:  " ++ EncodeToString (SerializeCompressed nodePub);
             "First p2wkh address:  " ++ @btcutil.EncodeAddress sound a2;
             "First n2pwkh address " ++ @btcutil.EncodeAddress sound a3]
       /\ stderrOf es = []
       /\ List.length (SerializeCompressed nodePub) = 33%nat
       /\ String.length (EncodeToString (SerializeCompressed nodePub))
          = 66%nat
       /\ isLowerHex (EncodeToString (SerializeCompressed nodePub)) = true.
Proof.
  assert (H1 : mnemonic start <> "") by discriminate.
  assert (H2 : @main sound start = (Val tt, snd (@main sound start)))
    by (vm_compute; reflexivity).
  split; [exact H1|]. split; [exact H2|].
  exact (@report_lines sound start _ H1 H2).
Defined.

(** A mnemonic of two words, and no mnemonic. *)
Lemma mnemonic_word_count_gate_witness :
  mnemonic twoWords <> ""
  /\ List.length (Split (mnemonic twoWords)) <> NummnemonicWords
  /\ @main sound twoWords
     = (Exited 1,
        appendEvents twoWords [Stderr "expected 24 words, instead got 2"])
  /\ mnemonic emptyWorld = ""
  /\ @main sound emptyWorld
     = (Val tt, appendEvents emptyWorld [Stderr (@flagDefaults sound)]).
Proof.
  assert (H1 : mnemonic twoWords <> "") by discriminate.
  assert (H2 : List.length (Split (mnemonic twoWords)) <> NummnemonicWords)
    by (vm_compute; discriminate).
  assert (H3 : mnemonic emptyWorld = "") by reflexivity.
  split; [exact H1|]. split; [exact H2|].
  split; [exact (proj1 (proj2 (proj2 (proj2
            (@mnemonic_word_count_gate sound twoWords)))) H1 H2)|].
  split; [exact H3|].
  exact (proj1 (proj2 (proj2 (@mnemonic_word_count_gate sound emptyWorld)))
           H3).
Defined.

End Scenarios.

(* ================================================================== *)
(** * Further concrete runs *)

Module MoreScenarios.
Import SampleInstances MoreSamples.

Local Open Scope string_scope.

(** A purpose above 2^31: the first index wraps around to 5. *)
Lemma deriveFirstKey_indices_modulo_witness :
  0 <= 2 ^ 31 + 5 < 2 ^ 32 /\ 0 <= 0 < 2 ^ 32
  /\ leafIndices (2 ^ 31 + 5) 0 = [5; 2 ^ 31; 2 ^ 31; 0; 0]
  /\ isHardened 5 = false.
Proof.
  assert (H1 : 0 <= 2 ^ 31 + 5 < 2 ^ 32) by lia.
  assert (H2 : 0 <= 0 < 2 ^ 32) by lia.
  split; [exact H1|]. split; [exact H2|].
  pose proof (@deriveFirstKey_indices_modulo sound privateRoot (2 ^ 31 + 5) 0
                emptyWorld H1 H2) as (L & Hh & _).
  split; [exact L | exact Hh].
Defined.

(** The nested-segwit path on a root with public material only fails at
    the purpose step. *)
Lemma deriveFirstKey_failure_step_witness :
  @deriveFirstKey sound publicRoot 49 0 emptyWorld
  = (Val (Error (Errorf "unable to derive purpose key; "
                   HardenedFromPublicOnly)),
     snd (@deriveFirstKey sound publicRoot 49 0 emptyWorld))
  /\ exists done parent index cause,
       snd (@deriveFirstKey sound publicRoot 49 0 emptyWorld)
       = appendEvents emptyWorld (done ++ [CallChild parent index])
       /\ forallb isDerivation done = true
       /\ (List.length done < 5)%nat
       /\ index = nth (List.length done) (leafIndices 49 0) 0
       /\ @hdkeychain.Child sound parent index = Error cause
       /\ Errorf "unable to derive purpose key; " HardenedFromPublicOnly
          = nth (List.length done)
              [Errorf "unable to derive purpose key; " cause;
               Errorf "unable to generate coin type key: " cause;
               Errorf "unable to derive account key: " cause;
               cause; cause] cause.
Proof.
  assert (H : @deriveFirstKey sound publicRoot 49 0 emptyWorld
              = (Val (Error (Errorf "unable to derive purpose key; "
                               HardenedFromPublicOnly)),
                 snd (@deriveFirstKey sound publicRoot 49 0 emptyWorld)))
    by (vm_compute; reflexivity).
  split; [exact H|].
  exact (@deriveFirstKey_failure_step sound publicRoot 49 0 emptyWorld _ _ H).
Defined.

(** The same root, any path of [main]. *)
Lemma deriveFirstKey_needs_private_root_witness :
  keyMaterial publicRoot = Public (mkPublicKey 5 1)
  /\ exists e es,
       @deriveFirstKey sound publicRoot 84 0 emptyWorld
       = (Val (Error e), appendEvents emptyWorld es)
       /\ (1 <= List.length es <= 2)%nat
       /\ childIndices es = firstn (List.length es) (leafIndices 84 0).
Proof.
  assert (H : keyMaterial publicRoot = Public (mkPublicKey 5 1))
    by reflexivity.
  split; [exact H|].
  exact (@deriveFirstKey_needs_private_root sound publicRoot _ 84 0
           emptyWorld H).
Defined.

(** The sample recovery refuses the pass phrase "wrong". *)
Lemma decrypt_failure_stops_witness :
  wellCounted wrongPass
  /\ @decipher sound (Split (mnemonic wrongPass))
       (bytes_of_string (aezeedPass wrongPass))
     = Error (SeedRecoveryError "invalid passphrase")
  /\ @main sound wrongPass
     = (Exited 1,
        appendEvents wrongPass
          [CallToCipherSeed (Split (mnemonic wrongPass))
             (bytes_of_string (aezeedPass wrongPass));
           Stderr "unable to decrypt cipher seed: invalid passphrase"]).
Proof.
  assert (H1 : wellCounted wrongPass)
    by (split; [discriminate | vm_compute; reflexivity]).
  assert (H2 : @decipher sound (Split (mnemonic wrongPass))
                 (bytes_of_string (aezeedPass wrongPass))
               = Error (SeedRecoveryError "invalid passphrase"))
    by (vm_compute; reflexivity).
  split; [exact H1|]. split; [exact H2|].
  exact (@decrypt_failure_stops sound wrongPass _ H1 H2).
Defined.

(** The complete sample run hands the 24 words and an empty pass phrase to
    the recovery. *)
Lemma recovery_input_witness :
  @main sound start
  = (Val tt, appendEvents start (eventsOf (@main sound start)))
  /\ In (Split words24, []) (decryptionsOf (eventsOf (@main sound start)))
  /\ List.length (Split words24) = 24%nat
  /\ String.concat " " (Split words24) = mnemonic start
  /\ decryptionsOf (eventsOf (@main sound start)) = [(Split words24, [])].
Proof.
  assert (H1 : @main sound start
               = (Val tt, appendEvents start (eventsOf (@main sound start))))
    by (vm_compute; reflexivity).
  assert (H2 : In (Split words24, [])
                 (decryptionsOf (eventsOf (@main sound start))))
    by (vm_compute; left; reflexivity).
  split; [exact H1|]. split; [exact H2|].
  pose proof (@recovery_input sound start _ _ _ _ H1 H2)
    as (_ & L & _ & C & _ & D & _).
  split; [exact L|]. split; [exact C|]. exact D.
Defined.

(** A mnemonic without a space is counted as one word. *)
Lemma space_count_gate_witness :
  @main sound oneWord
  = (Exited 1, appendEvents oneWord (eventsOf (@main sound oneWord)))
  /\ mnemonic oneWord <> ""
  /\ countSpaces (mnemonic oneWord) = 0%nat
  /\ eventsOf (@main sound oneWord)
     = [Stderr "expected 24 words, instead got 1"].
Proof.
  assert (H1 : @main sound oneWord
               = (Exited 1,
                  appendEvents oneWord (eventsOf (@main sound oneWord))))
    by (vm_compute; reflexivity).
  assert (H2 : mnemonic oneWord <> "") by discriminate.
  assert (H3 : countSpaces (mnemonic oneWord) = 0%nat) by reflexivity.
  split; [exact H1|]. split; [exact H2|]. split; [exact H3|].
  exact (proj2 (proj2 (@space_count_gate sound oneWord _ _ H1) H2 H3)).
Defined.


Lemma failure_messages_witness :
  @main failingChildren start
  = (Exited 1,
     appendEvents start (eventsOf (@main failingChildren start)))
  /\ exitStatus (@Exited unit 1) = 1
  /\ exists message,
       stderrOf (eventsOf (@main failingChildren start)) = [message]
       /\ String.prefix "unable to create " message = false.
Proof.
  assert (H1 : @main failingChildren start
               = (Exited 1,
                  appendEvents start (eventsOf (@main failingChildren start))))
    by (vm_compute; reflexivity).
  split; [exact H1|]. split; [reflexivity|].
  destruct (@failure_messages failingChildren start _ _ H1 eq_refl)
    as (message & Hm & _ & Hp).
  exists message. split; [exact Hm | exact Hp].
Defined.

(** The complete sample run. *)
Lemma complete_run_calls_witness :
  mnemonic start <> ""
  /\ @main sound start = (Val tt, snd (@main sound start))
  /\ exists es,
       snd (@main sound start) = appendEvents start es
       /\ childIndices es
          = [1017 + 2 ^ 31; 2 ^ 31; 6 + 2 ^ 31; 0; 0;
             84 + 2 ^ 31; 2 ^ 31; 2 ^ 31; 0; 0;
             49 + 2 ^ 31; 2 ^ 31; 2 ^ 31; 0; 0]%Z.
Proof.
  assert (H1 : mnemonic start <> "") by discriminate.
  assert (H2 : @main sound start = (Val tt, snd (@main sound start)))
    by (vm_compute; reflexivity).
  split; [exact H1|]. split; [exact H2|].
  destruct (@complete_run_calls sound start _ H1 H2)
    as (seed & root & es & Hw & _ & _ & _ & Hi).
  exists es. split; [exact Hw | exact Hi].
Defined.

Lemma report_address_texts_witness :
  mnemonic start <> ""
  /\ @main sound start = (Val tt, snd (@main sound start))
  /\ exists k2 k3 es,
       snd (@main sound start) = appendEvents start es
       /\ nth 2 (stdoutOf es) ""
          = "First p2wkh address:  "
            ++ @segwitEncode sound "bc" 0
                 (@Hash160 sound (SerializeCompressed k2))
       /\ nth 3 (stdoutOf es) ""
          = "First n2pwkh address "
            ++ @base58CheckEncode sound
                 (@Hash160 sound
                    (x00 :: x14 :: @Hash160 sound (SerializeCompressed k3)))
                 5.
Proof.
  assert (H1 : mnemonic start <> "") by discriminate.
  assert (H2 : @main sound start = (Val tt, snd (@main sound start)))
    by (vm_compute; reflexivity).
  split; [exact H1|]. split; [exact H2|].
  destruct (@report_address_texts sound start _ H1 H2)
    as (seed & root & k2 & k3 & es & Hw & _ & _ & _ & _ & L3 & L4).
  exists k2, k3, es. split; [exact Hw|]. split; [exact L3 | exact L4].
Defined.

(** Two complete runs that differ in the node path only print the same
    two address lines. *)
Lemma report_lines_independent_witness :
  mnemonic start <> ""
  /\ @mainWith sound mainNodePath mainSegwitPath mainNestedPath start
     = (Val tt,
        snd (@mainWith sound mainNodePath mainSegwitPath mainNestedPath start))
  /\ @mainWith sound otherNodePath mainSegwitPath mainNestedPath start
     = (Val tt,
        snd (@mainWith sound otherNodePath mainSegwitPath mainNestedPath
               start))
  /\ exists es es' l0 l1 l2 l3 l1',
       stdoutOf es = [l0; l1; l2; l3] /\ stdoutOf es' = [l0; l1'; l2; l3]
       /\ snd (@mainWith sound mainNodePath mainSegwitPath mainNestedPath
                 start)
          = appendEvents start es
       /\ snd (@mainWith sound otherNodePath mainSegwitPath mainNestedPath
                 start)
          = appendEvents start es'.
Proof.
  assert (H1 : mnemonic start <> "") by discriminate.
  assert (H2 : @mainWith sound mainNodePath mainSegwitPath mainNestedPath
                 start
               = (Val tt,
                  snd (@mainWith sound mainNodePath mainSegwitPath
                         mainNestedPath start)))
    by (vm_compute; reflexivity).
  assert (H3 : @mainWith sound otherNodePath mainSegwitPath mainNestedPath
                 start
               = (Val tt,
                  snd (@mainWith sound otherNodePath mainSegwitPath
                         mainNestedPath start)))
    by (vm_compute; reflexivity).
  split; [exact H1|]. split; [exact H2|]. split; [exact H3|].
  destruct (@report_lines_independent sound _ _ _ _ _ _ start _ _ H1 H2 H3)
    as (es & es' & l0 & l1 & l2 & l3 & l1' & l2' & l3'
        & W1 & W2 & S1 & S2 & _ & E2 & E3).
  exists es, es', l0, l1, l2, l3, l1'.
  rewrite <- (E2 eq_refl), <- (E3 eq_refl) in S2.
  split; [exact S1|]. split; [exact S2|]. split; [exact W1 | exact W2].
Defined.

End MoreScenarios.
